(** * filewatch.hpp: a shallow embedding of [filewatch::FileWatch]

    The header watches one file or one directory.  A monitoring thread decodes
    the notifications of the operating system (inotify on unix,
    ReadDirectoryChangesW on win32) into [(name, Event)] pairs and appends
    them to a mutex-guarded vector; a second thread swaps that vector out and
    calls the user callback once per pair.

    The embedding keeps the class as a record of its members, the two worker
    threads as program counters over that record, and a run of the program as
    a schedule: the list of thread steps in the order they happen, each step of
    the monitoring thread carrying what the operating system handed to it. *)

From Stdlib Require Import ZArith Ascii String List Lia.
From stdpp Require Import base option list gmap strings.

Local Open Scope Z_scope.

(** ** Platforms and events *)

(** The two [#ifdef] branches of the header. *)
Inductive Platform : Type := Win32 | Unix.

(** [enum class Event]. *)
Inductive Event : Type := CREATED | DELETED | CHANGED | RENAMED_OLD | RENAMED_NEW.

#[global] Instance Event_eq_dec : EqDecision Event.
Proof. solve_decision. Defined.

#[global] Instance Platform_eq_dec : EqDecision Platform.
Proof. solve_decision. Defined.

(** An element of [_callback_information]: [std::pair<std::string, Event>]. *)
Definition QueuedEvent : Type := (string * Event)%type.

(** ** Splitting a path *)

(** [struct PathParts]. *)
Record PathParts : Type := mkPathParts { directory : string; filename : string }.

(** The lambda [predict] of [split_directory_and_file]: the separator set. *)
Definition predict (platform : Platform) (character : ascii) : bool :=
  match platform with
  | Win32 => bool_decide (character = "\"%char) || bool_decide (character = "/"%char)
  | Unix => bool_decide (character = "/"%char)
  end.

Definition this_directory : string := "./".

(** [std::find_if(first, last, pred)] as the offset of the first match from
    [first], or the length of the range when nothing matches. *)
Fixpoint find_if {A : Type} (pred : A -> bool) (range : list A) : nat :=
  match range with
  | [] => 0%nat
  | x :: rest => if pred x then 0%nat else S (find_if pred rest)
  end.

(** [std::find_if(path.rbegin(), path.rend(), predict).base()]: the reverse
    iterator that is [k] steps from [rbegin()] has the base [end() - k]. *)
Definition pivot (platform : Platform) (path : list ascii) : nat :=
  (length path - find_if (predict platform) (rev path))%nat.

Definition split_directory_and_file (platform : Platform) (path : string) : PathParts :=
  let chars := list_ascii_of_string path in
  let pivot := pivot platform chars in
  let extracted_directory := string_of_list_ascii (take pivot chars) in
  let directory :=
    if (0 <? String.length extracted_directory)%nat then extracted_directory
    else this_directory in
  let filename := string_of_list_ascii (drop pivot chars) in
  mkPathParts directory filename.

(** A path holds a separator of the platform. *)
Definition has_separator (platform : Platform) (path : string) : bool :=
  existsb (predict platform) (list_ascii_of_string path).

(** ** What the operating system hands over *)

(** Values of [<sys/inotify.h>]. *)
Definition IN_MODIFY : Z := 0x2.
Definition IN_MOVED_FROM : Z := 0x40.
Definition IN_CREATE : Z := 0x100.
Definition IN_DELETE : Z := 0x200.

(** Values of [<winnt.h>]. *)
Definition FILE_ACTION_ADDED : Z := 1.
Definition FILE_ACTION_REMOVED : Z := 2.
Definition FILE_ACTION_MODIFIED : Z := 3.
Definition FILE_ACTION_RENAMED_OLD_NAME : Z := 4.
Definition FILE_ACTION_RENAMED_NEW_NAME : Z := 5.


(** [struct inotify_event]: [name] is the [len] bytes that follow the header,
    the entry's name padded with NUL bytes. *)
Record inotify_event : Type := mk_inotify_event {
  wd : Z;
  mask : Z;
  cookie : Z;
  len : Z;
  name : string
}.

(** [FILE_NOTIFY_INFORMATION]: [FileName] holds [FileNameLength / 2] wide
    characters and is not NUL-terminated. *)
Record FILE_NOTIFY_INFORMATION : Type := mk_FILE_NOTIFY_INFORMATION {
  NextEntryOffset : Z;
  Action : Z;
  FileNameLength : Z;
  FileName : list Z
}.

(** [sizeof(struct inotify_event)]: four 32-bit fields. *)
Definition event_size : Z := 16.


(** [_event_type_mapping], the [std::map<DWORD, Event>] of the win32 branch. *)
Definition _event_type_mapping : gmap Z Event :=
  <[FILE_ACTION_ADDED := CREATED]>
  (<[FILE_ACTION_REMOVED := DELETED]>
  (<[FILE_ACTION_MODIFIED := CHANGED]>
  (<[FILE_ACTION_RENAMED_OLD_NAME := RENAMED_OLD]>
  (<[FILE_ACTION_RENAMED_NEW_NAME := RENAMED_NEW]> ∅)))).

(** Building a [std::string] from a C string: the bytes before the first NUL. *)
Fixpoint c_string (bytes : string) : string :=
  match bytes with
  | EmptyString => EmptyString
  | String c rest => if bool_decide (c = "000"%char) then EmptyString else String c (c_string rest)
  end.

(** [static_cast<char>(wchar_t)]: the low eight bits. *)
Definition narrow (wide : Z) : ascii := ascii_of_N (Z.to_N (wide mod 256)).

(** The win32 loop over [k] that fills [changed_file] from the first
    [FileNameLength / 2] wide characters. *)
Definition changed_file_of (file_information : FILE_NOTIFY_INFORMATION) : string :=
  string_of_list_ascii
    (map narrow (take (Z.to_nat (FileNameLength file_information / 2))
                      (FileName file_information))).

(** What one blocking call of the monitoring thread returns.  [Inotify] is a
    [read] that filled the buffer with these events ([length] is their total
    size) and [ReadFailed] one that returned [-1]; [DirectoryChanges ok records]
    is [WAIT_OBJECT_0] with the result of [GetOverlappedResult] and the chain
    of records in the buffer (empty when [bytes_returned] is 0), [CloseEvent]
    is [WAIT_OBJECT_0 + 1] and [WaitFailed] is [WAIT_FAILED]. *)
Inductive OsWake : Type :=
  | Inotify (events : list inotify_event)
  | ReadFailed
  | DirectoryChanges (ok : bool) (records : list FILE_NOTIFY_INFORMATION)
  | CloseEvent
  | WaitFailed.

(** The value [read] returned for a buffer holding [events]. *)
Definition read_length (events : list inotify_event) : Z :=
  fold_right (fun event total => event_size + len event + total) 0 events.
(** ** The session object *)

(** What one call of the user callback does: it returns, or it throws an
    object whose type derives from [std::exception], or it throws any other
    object. *)
Inductive Outcome : Type := returns | throws_std_exception | throws_other.

(** [std::function<void(const std::string& file, const Event event_type)>]. *)
Definition Callback : Type := string -> Event -> Outcome.

(** [std::promise<void> _running]: no value yet, a value, or an exception. *)
Inductive Promise : Type := pending | ready | failed.

(** The two worker threads, as owners of [_callback_mutex]. *)
Inductive Worker : Type := Watcher | Dispatcher.

(** Where the thread running [monitor_directory] stands.  [W_Lock] and
    [W_Insert] carry the local vector [parsed_information]. *)
Inductive WatchPc : Type :=
  | W_Unstarted
  | W_Start
  | W_Test
  | W_Wait
  | W_Lock (parsed_information : list QueuedEvent)
  | W_Insert (parsed_information : list QueuedEvent)
  | W_Returned
  | W_Threw.

(** Where the thread running [callback_thread] stands.  [C_Unlock] and
    [C_For] carry the local vector [callback_information]; [C_Threw] keeps the
    elements the range-for never reached. *)
Inductive CallbackPc : Type :=
  | C_Unstarted
  | C_Test
  | C_Lock
  | C_Check
  | C_Wait
  | C_Swap
  | C_Unlock (callback_information : list QueuedEvent)
  | C_For (callback_information : list QueuedEvent)
  | C_Returned
  | C_Threw (unreached : list QueuedEvent).

(** The native handle kept in [_directory]: the path registered with the
    operating system and whether the handle is still open. *)
Record WatchHandle : Type := mkWatchHandle { watch_path : string; is_open : bool }.

(** One iteration of the range-for of [callback_thread]: the callback was
    called (with what it did), or [_callback] was empty and the element was
    skipped. *)
Inductive Dispatch : Type :=
  | Invoked (file : QueuedEvent) (outcome : Outcome)
  | Skipped (file : QueuedEvent).

(** [class FileWatch]: its data members, then two histories that the program
    does not keep: [os_log], what the blocking calls of the monitoring thread
    returned, oldest first, and [dispatched], the iterations of the range-for
    of the dispatch thread, oldest first. *)
Record FileWatch : Type := mkFileWatch {
  _path : string;
  _watching_single_file : bool;
  _filename : string;
  _destroy : bool;
  _callback : option Callback;
  _watch_thread : WatchPc;
  _callback_mutex : option Worker;
  _callback_information : list QueuedEvent;
  _callback_thread : CallbackPc;
  _running : Promise;
  _directory : WatchHandle;
  os_log : list OsWake;
  dispatched : list Dispatch
}.

Definition set_path (v : string) (w : FileWatch) : FileWatch :=
  {| _path := v;
     _watching_single_file := _watching_single_file w;
     _filename := _filename w;
     _destroy := _destroy w;
     _callback := _callback w;
     _watch_thread := _watch_thread w;
     _callback_mutex := _callback_mutex w;
     _callback_information := _callback_information w;
     _callback_thread := _callback_thread w;
     _running := _running w;
     _directory := _directory w;
     os_log := os_log w;
     dispatched := dispatched w |}.

Definition set_watching_single_file (v : bool) (w : FileWatch) : FileWatch :=
  {| _path := _path w;
     _watching_single_file := v;
     _filename := _filename w;
     _destroy := _destroy w;
     _callback := _callback w;
     _watch_thread := _watch_thread w;
     _callback_mutex := _callback_mutex w;
     _callback_information := _callback_information w;
     _callback_thread := _callback_thread w;
     _running := _running w;
     _directory := _directory w;
     os_log := os_log w;
     dispatched := dispatched w |}.

Definition set_filename (v : string) (w : FileWatch) : FileWatch :=
  {| _path := _path w;
     _watching_single_file := _watching_single_file w;
     _filename := v;
     _destroy := _destroy w;
     _callback := _callback w;
     _watch_thread := _watch_thread w;
     _callback_mutex := _callback_mutex w;
     _callback_information := _callback_information w;
     _callback_thread := _callback_thread w;
     _running := _running w;
     _directory := _directory w;
     os_log := os_log w;
     dispatched := dispatched w |}.

Definition set_destroy (v : bool) (w : FileWatch) : FileWatch :=
  {| _path := _path w;
     _watching_single_file := _watching_single_file w;
     _filename := _filename w;
     _destroy := v;
     _callback := _callback w;
     _watch_thread := _watch_thread w;
     _callback_mutex := _callback_mutex w;
     _callback_information := _callback_information w;
     _callback_thread := _callback_thread w;
     _running := _running w;
     _directory := _directory w;
     os_log := os_log w;
     dispatched := dispatched w |}.

Definition set_callback (v : option Callback) (w : FileWatch) : FileWatch :=
  {| _path := _path w;
     _watching_single_file := _watching_single_file w;
     _filename := _filename w;
     _destroy := _destroy w;
     _callback := v;
     _watch_thread := _watch_thread w;
     _callback_mutex := _callback_mutex w;
     _callback_information := _callback_information w;
     _callback_thread := _callback_thread w;
     _running := _running w;
     _directory := _directory w;
     os_log := os_log w;
     dispatched := dispatched w |}.

Definition set_watch_thread (v : WatchPc) (w : FileWatch) : FileWatch :=
  {| _path := _path w;
     _watching_single_file := _watching_single_file w;
     _filename := _filename w;
     _destroy := _destroy w;
     _callback := _callback w;
     _watch_thread := v;
     _callback_mutex := _callback_mutex w;
     _callback_information := _callback_information w;
     _callback_thread := _callback_thread w;
     _running := _running w;
     _directory := _directory w;
     os_log := os_log w;
     dispatched := dispatched w |}.

Definition set_callback_mutex (v : option Worker) (w : FileWatch) : FileWatch :=
  {| _path := _path w;
     _watching_single_file := _watching_single_file w;
     _filename := _filename w;
     _destroy := _destroy w;
     _callback := _callback w;
     _watch_thread := _watch_thread w;
     _callback_mutex := v;
     _callback_information := _callback_information w;
     _callback_thread := _callback_thread w;
     _running := _running w;
     _directory := _directory w;
     os_log := os_log w;
     dispatched := dispatched w |}.

Definition set_callback_information (v : list QueuedEvent) (w : FileWatch) : FileWatch :=
  {| _path := _path w;
     _watching_single_file := _watching_single_file w;
     _filename := _filename w;
     _destroy := _destroy w;
     _callback := _callback w;
     _watch_thread := _watch_thread w;
     _callback_mutex := _callback_mutex w;
     _callback_information := v;
     _callback_thread := _callback_thread w;
     _running := _running w;
     _directory := _directory w;
     os_log := os_log w;
     dispatched := dispatched w |}.

Definition set_callback_thread (v : CallbackPc) (w : FileWatch) : FileWatch :=
  {| _path := _path w;
     _watching_single_file := _watching_single_file w;
     _filename := _filename w;
     _destroy := _destroy w;
     _callback := _callback w;
     _watch_thread := _watch_thread w;
     _callback_mutex := _callback_mutex w;
     _callback_information := _callback_information w;
     _callback_thread := v;
     _running := _running w;
     _directory := _directory w;
     os_log := os_log w;
     dispatched := dispatched w |}.

Definition set_running (v : Promise) (w : FileWatch) : FileWatch :=
  {| _path := _path w;
     _watching_single_file := _watching_single_file w;
     _filename := _filename w;
     _destroy := _destroy w;
     _callback := _callback w;
     _watch_thread := _watch_thread w;
     _callback_mutex := _callback_mutex w;
     _callback_information := _callback_information w;
     _callback_thread := _callback_thread w;
     _running := v;
     _directory := _directory w;
     os_log := os_log w;
     dispatched := dispatched w |}.

Definition set_directory (v : WatchHandle) (w : FileWatch) : FileWatch :=
  {| _path := _path w;
     _watching_single_file := _watching_single_file w;
     _filename := _filename w;
     _destroy := _destroy w;
     _callback := _callback w;
     _watch_thread := _watch_thread w;
     _callback_mutex := _callback_mutex w;
     _callback_information := _callback_information w;
     _callback_thread := _callback_thread w;
     _running := _running w;
     _directory := v;
     os_log := os_log w;
     dispatched := dispatched w |}.

Definition set_os_log (v : list OsWake) (w : FileWatch) : FileWatch :=
  {| _path := _path w;
     _watching_single_file := _watching_single_file w;
     _filename := _filename w;
     _destroy := _destroy w;
     _callback := _callback w;
     _watch_thread := _watch_thread w;
     _callback_mutex := _callback_mutex w;
     _callback_information := _callback_information w;
     _callback_thread := _callback_thread w;
     _running := _running w;
     _directory := _directory w;
     os_log := v;
     dispatched := dispatched w |}.

Definition set_dispatched (v : list Dispatch) (w : FileWatch) : FileWatch :=
  {| _path := _path w;
     _watching_single_file := _watching_single_file w;
     _filename := _filename w;
     _destroy := _destroy w;
     _callback := _callback w;
     _watch_thread := _watch_thread w;
     _callback_mutex := _callback_mutex w;
     _callback_information := _callback_information w;
     _callback_thread := _callback_thread w;
     _running := _running w;
     _directory := _directory w;
     os_log := os_log w;
     dispatched := v |}.

(** ** The filter and the two decoders *)

(** [pass_filter]. *)
Definition pass_filter (platform : Platform) (w : FileWatch) (file_path : string) : bool :=
  if _watching_single_file w then
    let extracted_filename := filename (split_directory_and_file platform file_path) in
    bool_decide (extracted_filename = _filename w)
  else true.

(** The body of the unix [while (i < length)] loop for the event at offset
    [i]: what it appends to [parsed_information]. *)
Definition inotify_entry (w : FileWatch) (event : inotify_event) : list QueuedEvent :=
  if bool_decide (len event = 0) then []
  else
    let changed_file := c_string (name event) in
    if pass_filter Unix w changed_file then
      if bool_decide (Z.land (mask event) IN_CREATE = 0) then
        if bool_decide (Z.land (mask event) IN_DELETE = 0) then
          if bool_decide (Z.land (mask event) IN_MODIFY = 0) then []
          else [(changed_file, CHANGED)]
        else [(changed_file, DELETED)]
      else [(changed_file, CREATED)]
    else [].

(** The unix loop [while (i < length)]: [i] advances by
    [event_size + event->len], from one event of the buffer to the next. *)
Fixpoint parse_inotify (w : FileWatch) (events : list inotify_event) : list QueuedEvent :=
  match events with
  | [] => []
  | event :: following => inotify_entry w event ++ parse_inotify w following
  end.

(** The body of the win32 [do ... while (true)] loop for one record: what it
    appends to [parsed_information], or [None] when
    [_event_type_mapping.at] throws [std::out_of_range]. *)
Definition notify_entry (w : FileWatch) (file_information : FILE_NOTIFY_INFORMATION)
  : option (list QueuedEvent) :=
  let changed_file := changed_file_of file_information in
  if pass_filter Win32 w changed_file then
    event ← _event_type_mapping !! Action file_information;
    Some [(changed_file, event)]
  else Some [].

(** The win32 loop over the chain of records: it stops after the record whose
    [NextEntryOffset] is 0.  [bytes_returned == 0] is the empty chain. *)
Fixpoint parse_notify_information (w : FileWatch) (records : list FILE_NOTIFY_INFORMATION)
  : option (list QueuedEvent) :=
  match records with
  | [] => Some []
  | file_information :: following =>
      entry ← notify_entry w file_information;
      if bool_decide (NextEntryOffset file_information = 0) then Some entry
      else rest ← parse_notify_information w following; Some (entry ++ rest)
  end.

(** What one wake-up of the monitoring thread leaves in [parsed_information]
    when the thread survives it, and [None] when the thread throws. *)
Definition decode (platform : Platform) (w : FileWatch) (wake : OsWake)
  : option (list QueuedEvent) :=
  match platform, wake with
  | Unix, Inotify events =>
      Some (if 0 <? read_length events then parse_inotify w events else [])
  | Unix, ReadFailed => Some []
  | Win32, DirectoryChanges ok records =>
      if ok then parse_notify_information w records else None
  | Win32, CloseEvent => Some []
  | Win32, WaitFailed => Some []
  | _, _ => Some []
  end.

(** The records of one wake-up that reach the queue. *)
Definition survivors (platform : Platform) (w : FileWatch) (wake : OsWake) : list QueuedEvent :=
  default [] (decode platform w wake).

(** All surviving records, in the order the operating system reported them. *)
Definition reported (platform : Platform) (w : FileWatch) : list QueuedEvent :=
  flat_map (survivors platform w) (os_log w).

(** ** The worker threads *)

(** The [catch (...)] of the thread lambdas in [init]:
    [_running.set_exception] stores the exception when the promise holds
    nothing yet, and throws (into the inner, empty handler) otherwise. *)
Definition set_exception (w : FileWatch) : FileWatch :=
  match _running w with
  | pending => set_running failed w
  | _ => w
  end.

(** The wake-ups a build for [platform] can see. *)
Definition wake_of (platform : Platform) (wake : OsWake) : bool :=
  match platform, wake with
  | Unix, (Inotify _ | ReadFailed) => true
  | Win32, (DirectoryChanges _ _ | CloseEvent | WaitFailed) => true
  | _, _ => false
  end.

(** One step of the thread that runs [monitor_directory].  [wake] is read only
    at [W_Wait], where the thread is inside its blocking call. *)
Definition monitor_directory (platform : Platform) (wake : OsWake) (w : FileWatch) : FileWatch :=
  match _watch_thread w with
  | W_Unstarted => w
  | W_Start =>
      match _running w with
      | pending =>
          set_running ready
            (set_watch_thread (match platform with Unix => W_Test | Win32 => W_Wait end) w)
      | _ => set_watch_thread W_Threw w
      end
  | W_Test => set_watch_thread (if _destroy w then W_Returned else W_Wait) w
  | W_Wait =>
      if wake_of platform wake then
        let logged := set_os_log (os_log w ++ [wake]) w in
        match platform, wake with
        | Unix, Inotify events =>
            if 0 <? read_length events
            then set_watch_thread (W_Lock (parse_inotify w events)) logged
            else set_watch_thread W_Test logged
        | Unix, _ => set_watch_thread W_Test logged
        | Win32, DirectoryChanges ok records =>
            if ok then
              match parse_notify_information w records with
              | Some parsed_information => set_watch_thread (W_Lock parsed_information) logged
              | None => set_exception (set_watch_thread W_Threw logged)
              end
            else set_exception (set_watch_thread W_Threw logged)
        | Win32, _ => set_watch_thread (W_Lock []) logged
        end
      else w
  | W_Lock parsed_information =>
      match _callback_mutex w with
      | None => set_callback_mutex (Some Watcher) (set_watch_thread (W_Insert parsed_information) w)
      | Some _ => w
      end
  | W_Insert parsed_information =>
      set_callback_mutex None
        (set_callback_information (_callback_information w ++ parsed_information)
           (set_watch_thread W_Test w))
  | W_Returned => w
  | W_Threw => w
  end.

(** The predicate of [_cv.wait]. *)
Definition wake_condition (w : FileWatch) : bool :=
  (0 <? length (_callback_information w))%nat || _destroy w.

(** One step of the thread that runs [callback_thread]. *)
Definition callback_thread (w : FileWatch) : FileWatch :=
  match _callback_thread w with
  | C_Unstarted => w
  | C_Test => set_callback_thread (if _destroy w then C_Returned else C_Lock) w
  | C_Lock =>
      match _callback_mutex w with
      | None => set_callback_mutex (Some Dispatcher) (set_callback_thread C_Check w)
      | Some _ => w
      end
  | C_Check =>
      match _callback_information w with
      | [] =>
          if _destroy w then set_callback_thread C_Swap w
          else set_callback_mutex None (set_callback_thread C_Wait w)
      | _ :: _ => set_callback_thread C_Swap w
      end
  | C_Wait =>
      match _callback_mutex w with
      | None =>
          if wake_condition w
          then set_callback_mutex (Some Dispatcher) (set_callback_thread C_Swap w)
          else w
      | Some _ => w
      end
  | C_Swap =>
      set_callback_information []
        (set_callback_thread (C_Unlock (_callback_information w)) w)
  | C_Unlock callback_information =>
      set_callback_mutex None (set_callback_thread (C_For callback_information) w)
  | C_For [] => set_callback_thread C_Test w
  | C_For (file :: following) =>
      match _callback w with
      | None =>
          set_dispatched (dispatched w ++ [Skipped file])
            (set_callback_thread (C_For following) w)
      | Some callback =>
          let outcome := callback file.1 file.2 in
          let called := set_dispatched (dispatched w ++ [Invoked file outcome]) w in
          match outcome with
          | returns => set_callback_thread (C_For following) called
          | throws_std_exception => set_callback_thread (C_For following) called
          | throws_other => set_exception (set_callback_thread (C_Threw following) called)
          end
      end
  | C_Returned => w
  | C_Threw _ => w
  end.
(** ** The owning thread: construction, destruction, copy assignment *)

(** What [stat] or [GetFileAttributes] says about a path. *)
Inductive FileType : Type := regular_file | directory_file | other_file.

(** The answers of the operating system during construction: [file_type] is
    [None] when the query fails, [can_init] is whether [inotify_init] yields a
    descriptor, [can_watch] whether [inotify_add_watch] or [CreateFile]
    succeeds on a path. *)
Record Os : Type := mkOs {
  file_type : string -> option FileType;
  can_init : bool;
  can_watch : string -> bool
}.

(** [is_file] (unix; [None] is the [std::system_error]). *)
Definition is_file (os : Os) (path : string) : option bool :=
  statbuf ← file_type os path;
  Some (match statbuf with regular_file => true | _ => false end).

(** The win32 test [(file_info & FILE_ATTRIBUTE_DIRECTORY) == false]. *)
Definition not_a_directory (os : Os) (path : string) : option bool :=
  file_info ← file_type os path;
  Some (match file_info with directory_file => false | _ => true end).

(** [get_directory]: it sets [_watching_single_file] and [_filename] and
    returns the handle; [None] is a [std::system_error]. *)
Definition get_directory (platform : Platform) (os : Os) (path : string) (w : FileWatch)
  : option (WatchHandle * FileWatch) :=
  if match platform with Unix => can_init os | Win32 => true end then
    single ← match platform with
             | Unix => is_file os path
             | Win32 => not_a_directory os path
             end;
    let w := set_watching_single_file single w in
    let parsed_path := split_directory_and_file platform path in
    let w := if single then set_filename (filename parsed_path) w else w in
    let watch_path := if single then directory parsed_path else path in
    if can_watch os watch_path then Some (mkWatchHandle watch_path true, w) else None
  else None.

(** [init]: both threads are started.  The call then blocks in [future.get()]
    until the monitoring thread has set [_running]; the workers run on.  The
    [CreateEvent] of the win32 branch and the creation of the two threads are
    taken to succeed. *)
Definition init (w : FileWatch) : FileWatch :=
  set_watch_thread W_Start (set_callback_thread C_Test w).

(** The member initialisers of the constructor, in declaration order, before
    [_directory] is initialised by [get_directory]. *)
Definition members (path : string) (callback : option Callback) : FileWatch :=
  {| _path := path;
     _watching_single_file := false;
     _filename := "";
     _destroy := false;
     _callback := callback;
     _watch_thread := W_Unstarted;
     _callback_mutex := None;
     _callback_information := [];
     _callback_thread := C_Unstarted;
     _running := pending;
     _directory := mkWatchHandle "" false;
     os_log := [];
     dispatched := [] |}.

(** The constructor; [None] is an exception leaving it. *)
Definition FileWatch_new (platform : Platform) (os : Os) (path : string)
    (callback : option Callback) : option FileWatch :=
  '(handle, w) ← get_directory platform os path (members path callback);
  Some (init (set_directory handle w)).

(** [destroy] up to its joins: the stop flag, a fresh promise, and the calls
    meant to wake both threads ([inotify_rm_watch] or [SetEvent], and
    [notify_all]). *)
Definition request_stop (w : FileWatch) : FileWatch :=
  set_running pending (set_destroy true w).

(** A thread that [join] returns for. *)
Definition watch_finished (w : FileWatch) : bool :=
  match _watch_thread w with W_Returned | W_Threw => true | _ => false end.

Definition callback_finished (w : FileWatch) : bool :=
  match _callback_thread w with C_Returned | C_Threw _ => true | _ => false end.

(** One step of a run: a step of the monitoring thread with what its blocking
    call returns, a step of the dispatch thread, or the owner entering
    [destroy]. *)
Inductive Step : Type :=
  | step_watch (wake : OsWake)
  | step_callback
  | step_stop.

(** Whether a step is one of the dispatch thread. *)
Definition is_callback_step (s : Step) : bool :=
  match s with step_callback => true | _ => false end.

Definition step (platform : Platform) (w : FileWatch) (s : Step) : FileWatch :=
  match s with
  | step_watch wake => monitor_directory platform wake w
  | step_callback => callback_thread w
  | step_stop => request_stop w
  end.

(** The session after the steps of [schedule], first to last. *)
Definition run (platform : Platform) (schedule : list Step) (w : FileWatch) : FileWatch :=
  fold_left (step platform) schedule w.

(** [destroy]: [workers] are the steps the two threads take while the owner
    waits in the joins; the result is [None] while a join has not returned. *)
Definition destroy (platform : Platform) (workers : list Step) (w : FileWatch)
  : option FileWatch :=
  let stopped := run platform workers (request_stop w) in
  if watch_finished stopped && callback_finished stopped
  then Some (set_directory (mkWatchHandle (watch_path (_directory stopped)) false) stopped)
  else None.

(** [operator=]: [this_address] and [other_address] are the two objects'
    addresses, [w] and [other] their states. *)
Definition copy_assign (platform : Platform) (os : Os) (workers : list Step)
    (this_address other_address : N) (w other : FileWatch) : option FileWatch :=
  if bool_decide (this_address = other_address) then Some w
  else
    w ← destroy platform workers w;
    let w := set_path (_path other) w in
    let w := set_callback (_callback other) w in
    '(handle, w) ← get_directory platform os (_path other) w;
    Some (init (set_directory handle w)).

(** The calls of the user callback so far, oldest first. *)
Definition calls (w : FileWatch) : list QueuedEvent :=
  flat_map (fun d => match d with Invoked file _ => [file] | Skipped _ => [] end)
           (dispatched w).

(** Every element the range-for has gone through so far, oldest first. *)
Definition handled (w : FileWatch) : list QueuedEvent :=
  map (fun d => match d with Invoked file _ => file | Skipped file => file end)
      (dispatched w).

(** The local vector of the dispatch thread. *)
Definition held (w : FileWatch) : list QueuedEvent :=
  match _callback_thread w with
  | C_Unlock callback_information => callback_information
  | C_For callback_information => callback_information
  | C_Threw unreached => unreached
  | _ => []
  end.

(** The local vector of the monitoring thread. *)
Definition parsed (w : FileWatch) : list QueuedEvent :=
  match _watch_thread w with
  | W_Lock parsed_information => parsed_information
  | W_Insert parsed_information => parsed_information
  | _ => []
  end.

(** The number of steps of the dispatch thread in a schedule. *)
Fixpoint callback_steps (schedule : list Step) : nat :=
  match schedule with
  | [] => 0%nat
  | step_callback :: following => S (callback_steps following)
  | _ :: following => callback_steps following
  end.

(** The records the win32 loop visits: up to and including the first one
    whose [NextEntryOffset] is 0. *)
Fixpoint chain (records : list FILE_NOTIFY_INFORMATION) : list FILE_NOTIFY_INFORMATION :=
  match records with
  | [] => []
  | file_information :: following =>
      if bool_decide (NextEntryOffset file_information = 0) then [file_information]
      else file_information :: chain following
  end.

(** ** Sample inputs *)

(** A file system with the directories [D] and [E] and the regular file
    [a.txt] in [D], under both spellings of the separator; every registration
    succeeds. *)
Definition sample_os : Os :=
  mkOs (fun path =>
          if bool_decide (path = "D") then Some directory_file
          else if bool_decide (path = "E") then Some directory_file
          else if bool_decide (path = "D/a.txt") then Some regular_file
          else if bool_decide (path = "D\a.txt") then Some regular_file
          else None)
       true
       (fun _ => true).

(** A callback that returns, one that throws a [std::exception] for one
    file name, and one that throws an object of another type for it. *)
Definition accept : Callback := fun _ _ => returns.

Definition std_error_on (file : string) : Callback :=
  fun reported_name _ =>
    if bool_decide (reported_name = file) then throws_std_exception else returns.

Definition foreign_error_on (file : string) : Callback :=
  fun reported_name _ =>
    if bool_decide (reported_name = file) then throws_other else returns.

(** An inotify event for the entry [entry]: the name and one NUL byte. *)
Definition named_event (mask : Z) (entry : string) : inotify_event :=
  mk_inotify_event 1 mask 0 (Z.of_nat (String.length entry) + 1)
    (entry +:+ String "000" "").

(** A win32 record for the entry [entry]. *)
Definition wide (s : string) : list Z :=
  map (fun c => Z.of_N (N_of_ascii c)) (list_ascii_of_string s).

Definition notification (next action : Z) (entry : string) : FILE_NOTIFY_INFORMATION :=
  mk_FILE_NOTIFY_INFORMATION next action (2 * Z.of_nat (String.length entry)) (wide entry).

(** The session the constructor builds on [sample_os]. *)
Definition constructed (platform : Platform) (path : string) (callback : option Callback)
  : FileWatch :=
  default (members path callback) (FileWatch_new platform sample_os path callback).

(** ** Invariants of a run *)

(** Two states of one session agree on the watch target. *)
Definition same_target (w0 w : FileWatch) : Prop :=
  _watching_single_file w = _watching_single_file w0
  /\ _filename w = _filename w0
  /\ _callback w = _callback w0.

(** Everything decoded so far is, in the order of its decoding, what the
    range-for went through, then the local vector of the dispatch thread,
    then the shared queue, then the local vector of the monitoring thread. *)
Definition order_kept (platform : Platform) (w0 w : FileWatch) : Prop :=
  handled w ++ held w ++ _callback_information w ++ parsed w
  = flat_map (survivors platform w0) (os_log w).

Definition dispatcher_in_critical (w : FileWatch) : bool :=
  match _callback_thread w with C_Check | C_Swap | C_Unlock _ => true | _ => false end.

Definition watcher_in_critical (w : FileWatch) : bool :=
  match _watch_thread w with W_Insert _ => true | _ => false end.

(** [_callback_mutex] is owned by the thread that stands between its lock
    and its unlock, and the two threads never stand there together. *)
Definition mutex_consistent (w : FileWatch) : Prop :=
  _callback_mutex w =
    (if dispatcher_in_critical w then Some Dispatcher
     else if watcher_in_critical w then Some Watcher else None)
  /\ dispatcher_in_critical w && watcher_in_critical w = false.


(** With a callback in place every for-iteration is a call; without one
    there is no call. *)
Definition calls_follow_callback (w : FileWatch) : Prop :=
  match _callback w with
  | Some _ => calls w = handled w
  | None => calls w = []
  end.

(** The schedule of the sample runs: the monitoring thread starts, reads
    [first], inserts it, reads [second] and inserts it. *)
Definition two_reads (first second : OsWake) : list Step :=
  [step_watch ReadFailed; step_watch ReadFailed;
   step_watch first; step_watch ReadFailed; step_watch ReadFailed; step_watch ReadFailed;
   step_watch second; step_watch ReadFailed; step_watch ReadFailed].

(** A session whose stop flag is set and whose dispatch thread has not
    entered its loop; [history] is what [dispatched] holds. *)
Definition stopped (history : list Dispatch) (w : FileWatch) : Prop :=
  _destroy w = true
  /\ dispatched w = history
  /\ match _callback_thread w with C_Test | C_Returned => True | _ => False end.

(** A monitoring thread that is before its loop or behind it. *)
Definition outside_loop (log : list OsWake) (w : FileWatch) : Prop :=
  _destroy w = true
  /\ os_log w = log
  /\ match _watch_thread w with
     | W_Start | W_Test | W_Returned | W_Threw => True
     | _ => False
     end.

(** The session on [E] after [b = a], where [a] is the session on [D]: the
    workers of [b] run to their ends while [destroy] joins them. *)
Definition copy_assigned_sample : FileWatch :=
  default (members "" None)
    (copy_assign Unix sample_os
       [step_callback; step_watch ReadFailed; step_watch ReadFailed]
       1 2 (constructed Unix "E" (Some accept)) (constructed Unix "D" (Some accept))).

(** A session whose dispatch thread has ended; [history] is what
    [dispatched] holds. *)
Definition dispatch_ended (history : list Dispatch) (w : FileWatch) : Prop :=
  dispatched w = history /\ callback_finished w = true.

(** The sample session on the directory [D] once both files of one batch are
    in the local vector of the dispatch thread. *)
Definition draining (callback : Callback) : FileWatch :=
  run Unix
    (two_reads (Inotify [named_event IN_CREATE "a.txt"; named_event IN_CREATE "b.txt"])
               ReadFailed
     ++ repeat step_callback 5)
    (constructed Unix "D" (Some callback)).

(** What one win32 record contributes when its action code is in the table. *)
Definition mapped_entry (w : FileWatch) (file_information : FILE_NOTIFY_INFORMATION)
  : list QueuedEvent :=
  if pass_filter Win32 w (changed_file_of file_information) then
    match _event_type_mapping !! Action file_information with
    | Some event => [(changed_file_of file_information, event)]
    | None => []
    end
  else [].




(** ** Further operations of the class *)

(** The copy constructor: it delegates to the constructor with the path and
    the callback of [other]. *)
Definition FileWatch_copy (platform : Platform) (os : Os) (other : FileWatch)
  : option FileWatch :=
  FileWatch_new platform os (_path other) (_callback other).

(** Whether [get_directory] takes a path of this type as a single file:
    [S_ISREG] on unix, the absence of [FILE_ATTRIBUTE_DIRECTORY] on win32. *)
Definition single_file_type (platform : Platform) (type : FileType) : bool :=
  match platform, type with
  | Unix, regular_file => true
  | Unix, _ => false
  | Win32, directory_file => false
  | Win32, _ => true
  end.

(** A string without NUL byte. *)
Definition no_nul (s : string) : bool :=
  forallb (fun c => negb (bool_decide (c = "000"%char))) (list_ascii_of_string s).

(** A session whose stop flag is set with the dispatch thread at its loop
    test or behind its loop, [history] being what [dispatched] holds and
    [queued] a prefix of the queue. *)
Definition stopped_with_queue (history : list Dispatch) (queued : list QueuedEvent)
    (w : FileWatch) : Prop :=
  stopped history w /\ queued `prefix_of` _callback_information w.


(** A schedule in which the owner does not enter [destroy]. *)
Definition without_stop (schedule : list Step) : Prop := step_stop ∉ schedule.

(** While no stop is requested: [_running] holds nothing exactly as long as
    the monitoring thread has not executed [set_value], with nothing queued
    and the dispatch thread short of its swap; afterwards it holds the value. *)
Definition ready_when_started (w : FileWatch) : Prop :=
  _destroy w = false
  /\ match _watch_thread w with
     | W_Unstarted => False
     | W_Start =>
         _running w = pending
         /\ _callback_information w = []
         /\ match _callback_thread w with
            | C_Test | C_Lock | C_Check | C_Wait => True
            | _ => False
            end
     | _ => _running w = ready
     end.

(** A monitoring thread that has thrown after [set_value]. *)
Definition faulted (log : list OsWake) (w : FileWatch) : Prop :=
  os_log w = log /\ _watch_thread w = W_Threw /\ _running w = ready.

(** ** How [destroy] gets its joins back *)





(** The steps the dispatch thread needs to get from where it stands to its
    unlock, when it stands between its lock and its unlock. *)
Definition leave_critical (w : FileWatch) : nat :=
  match _callback_thread w with
  | C_Check => 3
  | C_Swap => 2
  | C_Unlock _ => 1
  | _ => 0
  end%nat.





(** ** How the queue runs empty *)

(** The steps the monitoring thread needs to hand over what it has decoded. *)
Definition insert_rank (w : FileWatch) : nat :=
  match _watch_thread w with
  | W_Lock _ => 2
  | W_Insert _ => 1
  | _ => 0
  end%nat.

(** While no stop is requested and the monitoring thread adds nothing: the
    steps from the loop test of the dispatch thread to its wait on an empty
    queue, with [queue] still to be swapped out and gone through. *)
Definition test_rank (queue : list QueuedEvent) : nat :=
  match queue with
  | [] => 3
  | _ :: _ => length queue + 9
  end%nat.

(** The same from where the dispatch thread stands. *)
Definition drain_rank (w : FileWatch) : nat :=
  match _callback_thread w with
  | C_Test => test_rank (_callback_information w)
  | C_Lock => test_rank (_callback_information w) - 1
  | C_Check => test_rank (_callback_information w) - 2
  | C_Wait =>
      match _callback_information w with
      | [] => 0
      | _ :: _ => length (_callback_information w) + 7
      end
  | C_Swap => length (_callback_information w) + 6
  | C_Unlock callback_information =>
      length callback_information + 2 + test_rank (_callback_information w)
  | C_For callback_information =>
      length callback_information + 1 + test_rank (_callback_information w)
  | C_Unstarted | C_Returned | C_Threw _ => 0
  end%nat.

(** A dispatch thread that is inside its loop. *)
Definition dispatching (w : FileWatch) : Prop :=
  _destroy w = false
  /\ match _callback_thread w with
     | C_Unstarted | C_Returned | C_Threw _ => False
     | _ => True
     end.

(** A schedule without wake-up that empties the queue: the dispatch thread
    leaves the mutex if it owns it, the monitoring thread inserts what it
    holds, and the dispatch thread goes on until it waits on an empty queue. *)
Definition flush (platform : Platform) (w : FileWatch) : list Step :=
  let unlock := repeat step_callback (leave_critical w) in
  let unlocked := run platform unlock w in
  let insert := repeat (step_watch ReadFailed) (insert_rank unlocked) in
  let inserted := run platform insert unlocked in
  unlock ++ insert ++ repeat step_callback (drain_rank inserted).

(** * Properties *)

(** ** Evaluations of [split_directory_and_file] *)

Example split_unix_nested :
  split_directory_and_file Unix "/tmp/D/a.txt" = mkPathParts "/tmp/D/" "a.txt".
Proof. reflexivity. Qed.

Example split_unix_bare :
  split_directory_and_file Unix "test.txt" = mkPathParts "./" "test.txt".
Proof. reflexivity. Qed.

Example split_win32_backslash :
  split_directory_and_file Win32 "C:\D\a.txt" = mkPathParts "C:\D\" "a.txt".
Proof. reflexivity. Qed.

Example split_unix_keeps_backslash :
  split_directory_and_file Unix "D\a.txt" = mkPathParts "./" "D\a.txt".
Proof. reflexivity. Qed.

(** ** Strings as lists of characters *)

Lemma string_of_list_ascii_app (a b : list ascii) :
  string_of_list_ascii (a ++ b) = string_of_list_ascii a +:+ string_of_list_ascii b.
Proof. induction a as [|c a IH]; simpl; [done | by rewrite IH]. Qed.

Lemma list_ascii_of_string_app (a b : string) :
  list_ascii_of_string (a +:+ b) = list_ascii_of_string a ++ list_ascii_of_string b.
Proof. induction a as [|c a IH]; simpl; [done | by rewrite IH]. Qed.

Lemma length_string_of_list_ascii (l : list ascii) :
  String.length (string_of_list_ascii l) = length l.
Proof. induction l as [|c l IH]; simpl; [done | by rewrite IH]. Qed.

(** ** The pivot of [split_directory_and_file] *)

Lemma find_if_none {A : Type} (pred : A -> bool) (l : list A) :
  existsb pred l = false -> find_if pred l = length l.
Proof.
  induction l as [|x l IH]; simpl; [done|].
  destruct (pred x); simpl; [done | intros H; by rewrite IH].
Qed.

Lemma find_if_first {A : Type} (pred : A -> bool) (l : list A) (x : A) (rest : list A) :
  existsb pred l = false -> pred x = true -> find_if pred (l ++ x :: rest) = length l.
Proof.
  induction l as [|y l IH]; simpl; intros Hl Hx.
  - by rewrite Hx.
  - destruct (pred y); simpl in *; [done | by rewrite IH].
Qed.

Lemma existsb_rev {A : Type} (pred : A -> bool) (l : list A) :
  existsb pred (rev l) = existsb pred l.
Proof.
  induction l as [|x l IH]; simpl; [done|].
  rewrite existsb_app, IH. simpl. destruct (pred x), (existsb pred l); done.
Qed.

Lemma pivot_none (platform : Platform) (path : list ascii) :
  existsb (predict platform) path = false -> pivot platform path = 0%nat.
Proof.
  intros H. unfold pivot.
  rewrite find_if_none by (by rewrite existsb_rev).
  rewrite length_rev. lia.
Qed.

Lemma pivot_last (platform : Platform) (before : list ascii) (separator : ascii)
    (after : list ascii) :
  predict platform separator = true ->
  existsb (predict platform) after = false ->
  pivot platform (before ++ separator :: after) = S (length before).
Proof.
  intros Hs Ha. unfold pivot.
  rewrite rev_app_distr. simpl. rewrite <- app_assoc. simpl.
  rewrite find_if_first by (by rewrite ?existsb_rev).
  rewrite length_rev, length_app. simpl. lia.
Qed.

(** Every list of characters either holds no separator or splits at its last one. *)
Lemma last_separator_cases (platform : Platform) (path : list ascii) :
  existsb (predict platform) path = false
  \/ exists before separator after,
       path = before ++ separator :: after
       /\ predict platform separator = true
       /\ existsb (predict platform) after = false.
Proof.
  induction path as [|c path IH]; [by left|].
  destruct IH as [Hnone | (before & separator & after & -> & Hs & Ha)].
  - destruct (predict platform c) eqn:Hc.
    + right. exists [], c, path. done.
    + left. simpl. by rewrite Hc, Hnone.
  - right. exists (c :: before), separator, after. done.
Qed.

Lemma split_no_separator (platform : Platform) (path : string) :
  has_separator platform path = false ->
  split_directory_and_file platform path = mkPathParts this_directory path.
Proof.
  unfold has_separator, split_directory_and_file. intros H.
  rewrite (pivot_none _ _ H). simpl. rewrite drop_0.
  by rewrite string_of_list_ascii_of_string.
Qed.

Lemma split_at_last_separator (platform : Platform) (before : string) (separator : ascii)
    (after : string) :
  predict platform separator = true ->
  has_separator platform after = false ->
  split_directory_and_file platform (before +:+ String separator after)
  = mkPathParts (before +:+ String separator "") after.
Proof.
  unfold has_separator, split_directory_and_file. intros Hs Ha.
  rewrite list_ascii_of_string_app. simpl.
  rewrite (pivot_last _ _ _ _ Hs Ha).
  set (b := list_ascii_of_string before). set (a := list_ascii_of_string after).
  assert (Htake : take (S (length b)) (b ++ separator :: a) = b ++ [separator]).
  { replace (b ++ separator :: a) with ((b ++ [separator]) ++ a) by (by rewrite <- app_assoc).
    rewrite take_app_length'; [done | rewrite length_app; simpl; lia]. }
  assert (Hdrop : drop (S (length b)) (b ++ separator :: a) = a).
  { replace (b ++ separator :: a) with ((b ++ [separator]) ++ a) by (by rewrite <- app_assoc).
    rewrite drop_app_length'; [done | rewrite length_app; simpl; lia]. }
  rewrite Htake, Hdrop, length_string_of_list_ascii, length_app. simpl.
  replace (0 <? length b + 1)%nat with true by (symmetry; apply Nat.ltb_lt; lia).
  rewrite string_of_list_ascii_app. simpl. unfold a, b.
  by rewrite !string_of_list_ascii_of_string.
Qed.

(** C5.  For every path, [split_directory_and_file] splits at the last
    separator of the platform's separator set: the filename is everything
    after it and the directory everything up to and including it; a path
    without separator gives the directory [./] and the whole path as filename. *)
Theorem split_directory_and_file_spec (platform : Platform) (path : string) :
  (has_separator platform path = false
   /\ split_directory_and_file platform path = mkPathParts "./" path)
  \/ (exists before separator after,
        path = before +:+ String separator after
        /\ predict platform separator = true
        /\ has_separator platform after = false
        /\ split_directory_and_file platform path
           = mkPathParts (before +:+ String separator "") after).
Proof.
  destruct (last_separator_cases platform (list_ascii_of_string path))
    as [Hnone | (before & separator & after & Hpath & Hs & Ha)].
  - left. split; [done | by apply split_no_separator].
  - right.
    exists (string_of_list_ascii before), separator, (string_of_list_ascii after).
    assert (Heq : path = string_of_list_ascii before +:+ String separator (string_of_list_ascii after)).
    { rewrite <- (string_of_list_ascii_of_string path), Hpath.
      by rewrite string_of_list_ascii_app. }
    assert (Hafter : has_separator platform (string_of_list_ascii after) = false).
    { unfold has_separator. by rewrite list_ascii_of_string_of_list_ascii. }
    repeat split; [done | done | done |].
    rewrite Heq at 1. by apply split_at_last_separator.
Qed.

(** ** The single-file filter *)

Lemma pass_filter_single (platform : Platform) (w : FileWatch) (file_path : string) :
  _watching_single_file w = true ->
  pass_filter platform w file_path = true
  <-> filename (split_directory_and_file platform file_path) = _filename w.
Proof.
  intros Hsingle. unfold pass_filter. rewrite Hsingle.
  apply bool_decide_eq_true.
Qed.


(** C9.  In a single-file session the filter accepts a reported name exactly
    when the part after the name's last separator equals [_filename]: a name
    with directory components passes whenever its last component is the
    watched filename, and a name without separator passes exactly when it is
    the watched filename. *)
Theorem pass_filter_compares_last_component (platform : Platform) (w : FileWatch)
    (reported_name : string) :
  _watching_single_file w = true ->
  (forall before separator after,
      reported_name = before +:+ String separator after ->
      predict platform separator = true ->
      has_separator platform after = false ->
      (pass_filter platform w reported_name = true <-> after = _filename w))
  /\ (has_separator platform reported_name = false ->
      (pass_filter platform w reported_name = true <-> reported_name = _filename w)).
Proof.
  intros Hsingle. split.
  - intros before separator after -> Hs Ha.
    rewrite (pass_filter_single _ _ _ Hsingle).
    by rewrite (split_at_last_separator _ _ _ _ Hs Ha).
  - intros Hnone.
    rewrite (pass_filter_single _ _ _ Hsingle).
    by rewrite (split_no_separator _ _ Hnone).
Qed.

Lemma pass_filter_compares_last_component_witness :
  _filename (constructed Win32 "D\a.txt" (Some accept)) = "a.txt"
  /\ pass_filter Win32 (constructed Win32 "D\a.txt" (Some accept)) "sub\a.txt" = true
  /\ pass_filter Win32 (constructed Win32 "D\a.txt" (Some accept)) "sub\b.txt" = false.
Proof.
  pose proof (pass_filter_compares_last_component Win32
                (constructed Win32 "D\a.txt" (Some accept)) "sub\a.txt" eq_refl) as [H _].
  split; [reflexivity | split; [| reflexivity]].
  apply (H "sub" "\"%char "a.txt"); reflexivity.
Defined.

(** ** The decoders *)

Lemma pass_filter_same_target (platform : Platform) (w w' : FileWatch) (file_path : string) :
  _watching_single_file w' = _watching_single_file w ->
  _filename w' = _filename w ->
  pass_filter platform w' file_path = pass_filter platform w file_path.
Proof. intros H1 H2. unfold pass_filter. by rewrite H1, H2. Qed.

Lemma parse_inotify_same_target (w w' : FileWatch) (events : list inotify_event) :
  _watching_single_file w' = _watching_single_file w ->
  _filename w' = _filename w ->
  parse_inotify w' events = parse_inotify w events.
Proof.
  intros H1 H2. induction events as [|event events IH]; simpl; [done|].
  rewrite IH. f_equal. unfold inotify_entry.
  by rewrite (pass_filter_same_target Unix w w').
Qed.

Lemma parse_notify_information_same_target (w w' : FileWatch)
    (records : list FILE_NOTIFY_INFORMATION) :
  _watching_single_file w' = _watching_single_file w ->
  _filename w' = _filename w ->
  parse_notify_information w' records = parse_notify_information w records.
Proof.
  intros H1 H2. induction records as [|record records IH]; simpl; [done|].
  rewrite IH. unfold notify_entry.
  by rewrite (pass_filter_same_target Win32 w w').
Qed.

Lemma survivors_same_target (platform : Platform) (w w' : FileWatch) (wake : OsWake) :
  _watching_single_file w' = _watching_single_file w ->
  _filename w' = _filename w ->
  survivors platform w' wake = survivors platform w wake.
Proof.
  intros H1 H2. unfold survivors, decode.
  destruct platform, wake; try done.
  - by rewrite (parse_notify_information_same_target w w').
  - by rewrite (parse_inotify_same_target w w').
Qed.

Lemma parse_inotify_app (w : FileWatch) (a b : list inotify_event) :
  parse_inotify w (a ++ b) = parse_inotify w a ++ parse_inotify w b.
Proof. induction a as [|event a IH]; simpl; [done | by rewrite IH, app_assoc]. Qed.

Lemma inotify_entry_zero_length (w : FileWatch) (event : inotify_event) :
  len event = 0 -> inotify_entry w event = [].
Proof. intros H. unfold inotify_entry. by rewrite bool_decide_eq_true_2. Qed.

(** Each element of a decoded unix batch comes from one event of the batch. *)
Lemma elem_of_parse_inotify (w : FileWatch) (events : list inotify_event) (queued : QueuedEvent) :
  queued ∈ parse_inotify w events <->
  exists event, event ∈ events /\ queued ∈ inotify_entry w event.
Proof.
  induction events as [|event events IH]; simpl.
  - split; [by intros ?%elem_of_nil | by intros (? & ?%elem_of_nil & _)].
  - rewrite elem_of_app, IH. split.
    + intros [H | (e & He & H)].
      * exists event. split; [apply elem_of_cons; by left | done].
      * exists e. split; [apply elem_of_cons; by right | done].
    + intros (e & He & H). apply elem_of_cons in He as [-> | He]; [by left | right; eauto].
Qed.

Lemma survivors_inotify_subset (w : FileWatch) (events : list inotify_event) (queued : QueuedEvent) :
  queued ∈ survivors Unix w (Inotify events) -> queued ∈ parse_inotify w events.
Proof.
  unfold survivors, decode. simpl. destruct (0 <? read_length events); [done|].
  by intros ?%elem_of_nil.
Qed.

(** C10.  On the unix backend an event whose [len] is 0 contributes nothing,
    whatever its mask: the batch decodes as the batch without that event, and
    every element that reaches the queue comes from an event of non-zero
    length. *)
Theorem zero_length_event_is_skipped (w : FileWatch) (before : list inotify_event)
    (event : inotify_event) (after : list inotify_event) :
  len event = 0 ->
  parse_inotify w (before ++ event :: after) = parse_inotify w (before ++ after)
  /\ forall queued,
       queued ∈ survivors Unix w (Inotify (before ++ event :: after)) ->
       exists other, other ∈ before ++ after /\ len other <> 0
                     /\ queued ∈ inotify_entry w other.
Proof.
  intros Hlen.
  assert (Heq : parse_inotify w (before ++ event :: after) = parse_inotify w (before ++ after)).
  { rewrite !parse_inotify_app. simpl. by rewrite (inotify_entry_zero_length _ _ Hlen). }
  split; [done|].
  intros queued Hq%survivors_inotify_subset. rewrite Heq in Hq.
  apply elem_of_parse_inotify in Hq as (other & Hother & Hq).
  exists other. repeat split; [done | | done].
  intros Hzero. rewrite (inotify_entry_zero_length _ _ Hzero) in Hq.
  by apply elem_of_nil in Hq.
Qed.

Lemma zero_length_event_is_skipped_witness :
  parse_inotify (constructed Unix "D" (Some accept))
    [named_event IN_CREATE "a.txt"; mk_inotify_event 1 IN_CREATE 0 0 "x";
     named_event IN_DELETE "a.txt"]
  = [("a.txt", CREATED); ("a.txt", DELETED)].
Proof.
  pose proof (zero_length_event_is_skipped (constructed Unix "D" (Some accept))
                [named_event IN_CREATE "a.txt"] (mk_inotify_event 1 IN_CREATE 0 0 "x")
                [named_event IN_DELETE "a.txt"] eq_refl) as [H _].
  simpl app in H. rewrite H. reflexivity.
Defined.

(** ** Runs *)

Ltac step_cases :=
  unfold step, monitor_directory, callback_thread, request_stop, set_exception;
  simpl in *; repeat (case_match; simplify_eq; simpl in *); try done.

Lemma step_same_target (platform : Platform) (w : FileWatch) (s : Step) :
  same_target w (step platform w s).
Proof. unfold same_target. destruct w, s; step_cases. Qed.

Lemma same_target_trans (w0 w1 w2 : FileWatch) :
  same_target w0 w1 -> same_target w1 w2 -> same_target w0 w2.
Proof. unfold same_target. intros (?&?&?) (?&?&?). repeat split; congruence. Qed.

Lemma same_target_refl (w : FileWatch) : same_target w w.
Proof. done. Qed.

Lemma run_same_target (platform : Platform) (schedule : list Step) (w : FileWatch) :
  same_target w (run platform schedule w).
Proof.
  revert w. induction schedule as [|s schedule IH]; intros w; simpl; [done|].
  eapply same_target_trans; [apply (step_same_target platform w s) | apply IH].
Qed.

(** A property that every step keeps holds after every run. *)
Lemma run_invariant (platform : Platform) (P : FileWatch -> Prop) :
  (forall w s, P w -> P (step platform w s)) ->
  forall schedule w, P w -> P (run platform schedule w).
Proof.
  intros Hstep schedule. induction schedule as [|s schedule IH]; intros w HP; simpl; [done|].
  apply IH, Hstep, HP.
Qed.

Lemma run_app (platform : Platform) (a b : list Step) (w : FileWatch) :
  run platform (a ++ b) w = run platform b (run platform a w).
Proof. apply fold_left_app. Qed.

(** ** Order *)

Lemma flat_map_snoc {A B : Type} (f : A -> list B) (l : list A) (x : A) :
  flat_map f (l ++ [x]) = flat_map f l ++ f x.
Proof. rewrite flat_map_app. simpl. by rewrite app_nil_r. Qed.

Lemma set_exception_frame (w : FileWatch) :
  dispatched (set_exception w) = dispatched w
  /\ _callback_thread (set_exception w) = _callback_thread w
  /\ _watch_thread (set_exception w) = _watch_thread w
  /\ _callback_information (set_exception w) = _callback_information w
  /\ os_log (set_exception w) = os_log w
  /\ _callback_mutex (set_exception w) = _callback_mutex w
  /\ _destroy (set_exception w) = _destroy w.
Proof. unfold set_exception. by destruct (_running w). Qed.

Ltac simpl_exception :=
  repeat match goal with
  | |- context [set_exception ?w] =>
      let H1 := fresh in let H2 := fresh in let H3 := fresh in let H4 := fresh in
      let H5 := fresh in let H6 := fresh in let H7 := fresh in
      destruct (set_exception_frame w) as (H1 & H2 & H3 & H4 & H5 & H6 & H7);
      rewrite ?H1, ?H2, ?H3, ?H4, ?H5, ?H6, ?H7;
      clear H1 H2 H3 H4 H5 H6 H7
  end.

Lemma step_order_kept (platform : Platform) (w0 w : FileWatch) (s : Step) :
  same_target w0 w -> order_kept platform w0 w -> order_kept platform w0 (step platform w s).
Proof.
  unfold order_kept, same_target, handled, held, parsed.
  intros (Hsingle & Hname & _) H.
  destruct s as [wake| |].
  - unfold step, monitor_directory.
    destruct (_watch_thread w) eqn:Hpc; simpl; rewrite ?Hpc; try done.
    + destruct (_running w); simpl; try done. destruct platform; done.
    + destruct (_destroy w); done.
    + rewrite app_nil_r in H.
      destruct (wake_of platform wake) eqn:Hwake; [|by rewrite Hpc, app_nil_r].
      destruct platform, wake; simpl in Hwake; try done.
      * destruct ok.
        -- destruct (parse_notify_information w records) as [parsed_information|] eqn:Hparse;
             simpl_exception; simpl; rewrite flat_map_snoc, <- H;
             unfold survivors, decode;
             rewrite <- (parse_notify_information_same_target w0 w) by done;
             rewrite Hparse; simpl; by rewrite ?app_nil_r, ?app_assoc.
        -- simpl_exception. simpl. rewrite flat_map_snoc, <- H. simpl.
           by rewrite ?app_nil_r, ?app_assoc.
      * simpl. rewrite flat_map_snoc, <- H. simpl. by rewrite ?app_nil_r, ?app_assoc.
      * simpl. rewrite flat_map_snoc, <- H. simpl. by rewrite ?app_nil_r, ?app_assoc.
      * destruct (0 <? read_length events) eqn:Hlen; simpl;
          rewrite flat_map_snoc, <- H; unfold survivors, decode; rewrite Hlen; simpl;
          rewrite <- ?(parse_inotify_same_target w0 w) by done;
          by rewrite ?app_nil_r, ?app_assoc.
      * simpl. rewrite flat_map_snoc, <- H. simpl. by rewrite ?app_nil_r, ?app_assoc.
    + destruct (_callback_mutex w); simpl; by rewrite ?Hpc.
    + rewrite <- H. rewrite !app_nil_r. by rewrite !app_assoc.
  - unfold step, callback_thread.
    destruct (_callback_thread w) as [| | | | | |local|local| |unreached] eqn:Hpc;
      simpl; rewrite ?Hpc; try done.
    + destruct (_destroy w); done.
    + destruct (_callback_mutex w); simpl; by rewrite ?Hpc.
    + destruct (_callback_information w) eqn:Hq; [destruct (_destroy w)|];
        simpl; by rewrite ?Hpc, ?Hq.
    + destruct (_callback_mutex w); [by rewrite Hpc|].
      destruct (wake_condition w); simpl; by rewrite ?Hpc.
    + destruct local as [|file following]; [done|].
      destruct (_callback w) as [callback|]; simpl in *.
      * destruct (callback file.1 file.2); simpl_exception; simpl;
          rewrite <- H, map_app; simpl; by rewrite <- !app_assoc.
      * rewrite <- H, map_app. simpl. by rewrite <- !app_assoc.
  - done.
Qed.

Lemma run_order_kept (platform : Platform) (schedule : list Step) (w0 w : FileWatch) :
  same_target w0 w -> order_kept platform w0 w ->
  order_kept platform w0 (run platform schedule w).
Proof.
  revert w. induction schedule as [|s schedule IH]; intros w Htarget H; simpl; [done|].
  apply IH.
  - eapply same_target_trans; [done | apply step_same_target].
  - by apply step_order_kept.
Qed.

(** ** What a constructed session looks like *)

(** [get_directory] touches [_watching_single_file] and [_filename] only. *)
Lemma get_directory_result (platform : Platform) (os : Os) (path : string)
    (w w' : FileWatch) (handle : WatchHandle) :
  get_directory platform os path w = Some (handle, w') ->
  exists single,
    is_open handle = true
    /\ w' = (if single : bool
             then set_filename (filename (split_directory_and_file platform path))
                    (set_watching_single_file true w)
             else set_watching_single_file false w).
Proof.
  unfold get_directory. intros H.
  destruct (match platform with Win32 => true | Unix => can_init os end); [|done].
  destruct (match platform with
            | Win32 => not_a_directory os path
            | Unix => is_file os path
            end) as [single|]; [|done].
  simpl in H. destruct (can_watch os _); [|done].
  injection H as <- <-. exists single. by destruct single.
Qed.

Lemma FileWatch_new_fresh (platform : Platform) (os : Os) (path : string)
    (callback : option Callback) (w : FileWatch) :
  FileWatch_new platform os path callback = Some w ->
  _destroy w = false
  /\ _callback w = callback
  /\ _watch_thread w = W_Start
  /\ _callback_thread w = C_Test
  /\ _callback_mutex w = None
  /\ _callback_information w = []
  /\ _running w = pending
  /\ os_log w = []
  /\ dispatched w = [].
Proof.
  unfold FileWatch_new. intros H.
  destruct (get_directory _ _ _ _) as [[handle w']|] eqn:Hget; [|done].
  apply get_directory_result in Hget as (single & _ & ->).
  simpl in H. injection H as <-. by destruct single.
Qed.

Lemma FileWatch_new_target (platform : Platform) (os : Os) (path : string)
    (callback : option Callback) (w : FileWatch) :
  FileWatch_new platform os path callback = Some w ->
  _watching_single_file w = true ->
  _filename w = filename (split_directory_and_file platform path).
Proof.
  unfold FileWatch_new. intros H.
  destruct (get_directory _ _ _ _) as [[handle w']|] eqn:Hget; [|done].
  apply get_directory_result in Hget as (single & _ & ->).
  simpl in H. injection H as <-. by destruct single.
Qed.

Lemma fresh_order_kept (platform : Platform) (w : FileWatch) :
  _watch_thread w = W_Start -> _callback_thread w = C_Test ->
  _callback_information w = [] -> os_log w = [] -> dispatched w = [] ->
  order_kept platform w w.
Proof.
  unfold order_kept, handled, held, parsed. by intros -> -> -> -> ->.
Qed.

(** ** The mutex *)

Lemma step_mutex_consistent (platform : Platform) (w : FileWatch) (s : Step) :
  mutex_consistent w -> mutex_consistent (step platform w s).
Proof.
  unfold mutex_consistent, dispatcher_in_critical, watcher_in_critical.
  destruct w; simpl. intros [Hm Hx]. destruct s; step_cases.
Qed.

Lemma fresh_mutex_consistent (w : FileWatch) :
  _watch_thread w = W_Start -> _callback_thread w = C_Test -> _callback_mutex w = None ->
  mutex_consistent w.
Proof.
  unfold mutex_consistent, dispatcher_in_critical, watcher_in_critical.
  by intros -> -> ->.
Qed.

(** ** Calls of the callback *)

Lemma reported_same_target (platform : Platform) (w0 w : FileWatch) :
  same_target w0 w ->
  reported platform w = flat_map (survivors platform w0) (os_log w).
Proof.
  intros (Hsingle & Hname & _). unfold reported.
  induction (os_log w) as [|wake log IH]; simpl; [done|].
  by rewrite IH, (survivors_same_target platform w0 w).
Qed.

Lemma step_calls_follow_callback (platform : Platform) (w : FileWatch) (s : Step) :
  calls_follow_callback w -> calls_follow_callback (step platform w s).
Proof.
  unfold calls_follow_callback, calls, handled.
  destruct w; simpl. intros H.
  destruct s; step_cases;
    rewrite ?flat_map_snoc, ?map_app; simpl; by rewrite ?H, ?app_nil_r.
Qed.

Lemma calls_prefix_handled (w : FileWatch) :
  calls_follow_callback w -> calls w `prefix_of` handled w.
Proof.
  unfold calls_follow_callback. destruct (_callback w); intros ->.
  - done.
  - apply prefix_nil.
Qed.

(** What every run of a constructed session keeps. *)
Lemma constructed_run (platform : Platform) (os : Os) (path : string)
    (callback : option Callback) (w0 : FileWatch) (schedule : list Step) :
  FileWatch_new platform os path callback = Some w0 ->
  let w := run platform schedule w0 in
  same_target w0 w
  /\ handled w ++ held w ++ _callback_information w ++ parsed w = reported platform w
  /\ calls_follow_callback w
  /\ mutex_consistent w.
Proof.
  intros Hnew w.
  destruct (FileWatch_new_fresh _ _ _ _ _ Hnew)
    as (_ & Hcb & Hwatch & Hcallback & Hmutex & Hqueue & _ & Hlog & Hdispatched).
  assert (Htarget : same_target w0 w) by apply run_same_target.
  split; [done | split; [| split]].
  - rewrite (reported_same_target _ _ _ Htarget).
    apply run_order_kept; [done | by apply fresh_order_kept].
  - apply run_invariant; [apply step_calls_follow_callback|].
    unfold calls_follow_callback, calls, handled. rewrite Hdispatched.
    by destruct (_callback w0).
  - apply run_invariant; [apply step_mutex_consistent|].
    by apply fresh_mutex_consistent.
Qed.

Lemma callbacks_prefix (platform : Platform) (os : Os) (path : string)
    (callback : option Callback) (w0 : FileWatch) (schedule : list Step) :
  FileWatch_new platform os path callback = Some w0 ->
  calls (run platform schedule w0) `prefix_of` reported platform (run platform schedule w0).
Proof.
  intros Hnew.
  destruct (constructed_run _ _ _ _ _ schedule Hnew) as (_ & Horder & Hcalls & _).
  rewrite <- Horder. etrans; [by apply calls_prefix_handled | by apply prefix_app_r].
Qed.

(** C6.  In every run of a constructed session the calls of the callback
    are, in order, a prefix of the surviving records in the order the
    operating system reported them, batch after batch; with a callback in
    place the calls, the local vector of the dispatch thread, the queue and
    the local vector of the monitoring thread make up exactly that sequence.
    So of two records, reported in one batch or in two, the earlier is passed
    to the callback before the later. *)
Theorem callbacks_follow_report_order (platform : Platform) (os : Os) (path : string)
    (callback : option Callback) (w0 : FileWatch) (schedule : list Step) :
  FileWatch_new platform os path callback = Some w0 ->
  let w := run platform schedule w0 in
  calls w `prefix_of` reported platform w
  /\ (is_Some callback ->
      calls w ++ held w ++ _callback_information w ++ parsed w = reported platform w)
  /\ (forall (i j : nat) (a b : QueuedEvent),
        (i < j)%nat ->
        reported platform w !! i = Some a ->
        reported platform w !! j = Some b ->
        (j < length (calls w))%nat ->
        calls w !! i = Some a /\ calls w !! j = Some b).
Proof.
  intros Hnew w.
  destruct (FileWatch_new_fresh _ _ _ _ _ Hnew) as (_ & Hcb & _).
  destruct (constructed_run _ _ _ _ _ schedule Hnew) as (Htarget & Horder & Hcalls & _).
  fold w in Htarget, Horder, Hcalls.
  pose proof (callbacks_prefix _ _ _ _ _ schedule Hnew) as Hprefix. fold w in Hprefix.
  split; [done | split].
  - intros [cb ->]. unfold calls_follow_callback in Hcalls.
    destruct Htarget as (_ & _ & Hsame). rewrite Hsame, Hcb in Hcalls.
    by rewrite Hcalls.
  - intros i j a b Hij Ha Hb Hj.
    assert (Hat : forall k x, (k < length (calls w))%nat ->
                    reported platform w !! k = Some x -> calls w !! k = Some x).
    { intros k x Hk Hx. destruct (lookup_lt_is_Some_2 _ _ Hk) as [y Hy].
      pose proof (prefix_lookup_Some _ _ _ _ Hy Hprefix) as Hy'. congruence. }
    split; apply Hat; [lia | done | done | done].
Qed.

Lemma callbacks_follow_report_order_witness :
  let w := run Unix
             (two_reads (Inotify [named_event IN_CREATE "a.txt"; named_event IN_MODIFY "b.txt"])
                        (Inotify [named_event IN_DELETE "a.txt"])
              ++ repeat step_callback 6)
             (constructed Unix "D" (Some accept)) in
  calls w = [("a.txt", CREATED)]
  /\ calls w ++ held w ++ _callback_information w ++ parsed w
     = [("a.txt", CREATED); ("b.txt", CHANGED); ("a.txt", DELETED)]
  /\ calls w ++ held w ++ _callback_information w ++ parsed w = reported Unix w.
Proof.
  split; [reflexivity | split; [reflexivity |]].
  refine (proj1 (proj2 (callbacks_follow_report_order Unix sample_os "D" (Some accept)
                          (constructed Unix "D" (Some accept)) _ eq_refl)) _).
  by eexists.
Defined.

(** ** The swap and the unlock *)

(** A for-iteration changes [dispatched] only at [C_For], with one more
    element to go through. *)
Lemma callback_thread_dispatches (w : FileWatch) :
  dispatched (callback_thread w) <> dispatched w ->
  exists file following, _callback_thread w = C_For (file :: following).
Proof.
  unfold callback_thread. intros H.
  destruct (_callback_thread w) as [| | | | | |local|[|file following]| |unreached];
    try by eauto.
  all: exfalso; apply H; repeat (case_match; simpl); done.
Qed.

(** C8.  In every run of a constructed session the dispatch thread swaps
    while it owns [_callback_mutex]: after the swap the shared queue is empty
    and the thread holds exactly what was queued, in order; the next step
    releases the mutex; and no step that calls the callback, or skips an
    element, is taken while the dispatch thread owns the mutex. *)
Theorem dispatcher_swaps_then_unlocks (platform : Platform) (os : Os) (path : string)
    (callback : option Callback) (w0 : FileWatch) (schedule : list Step) :
  FileWatch_new platform os path callback = Some w0 ->
  let w := run platform schedule w0 in
  (_callback_thread w = C_Swap ->
     _callback_mutex w = Some Dispatcher
     /\ _callback_information (callback_thread w) = []
     /\ _callback_thread (callback_thread w) = C_Unlock (_callback_information w)
     /\ _callback_mutex (callback_thread w) = Some Dispatcher
     /\ dispatched (callback_thread w) = dispatched w)
  /\ (forall callback_information,
        _callback_thread w = C_Unlock callback_information ->
        _callback_mutex (callback_thread w) = None
        /\ _callback_thread (callback_thread w) = C_For callback_information
        /\ dispatched (callback_thread w) = dispatched w)
  /\ (dispatched (callback_thread w) <> dispatched w ->
      _callback_mutex w <> Some Dispatcher).
Proof.
  intros Hnew w.
  destruct (constructed_run _ _ _ _ _ schedule Hnew) as (_ & _ & _ & Hlock & _).
  fold w in Hlock. unfold dispatcher_in_critical in Hlock.
  split; [|split].
  - intros Hpc. rewrite Hpc in Hlock. unfold callback_thread. rewrite Hpc. simpl.
    by rewrite Hlock.
  - intros callback_information Hpc. unfold callback_thread. by rewrite Hpc.
  - intros (file & following & Hpc)%callback_thread_dispatches.
    rewrite Hpc in Hlock. rewrite Hlock.
    unfold watcher_in_critical. by destruct (_watch_thread w).
Qed.

Lemma dispatcher_swaps_then_unlocks_witness :
  let w := run Unix
             [step_watch ReadFailed; step_watch ReadFailed;
              step_watch (Inotify [named_event IN_CREATE "a.txt"]);
              step_watch ReadFailed; step_watch ReadFailed;
              step_callback; step_callback; step_callback]
             (constructed Unix "D" (Some accept)) in
  _callback_thread w = C_Swap
  /\ _callback_information w = [("a.txt", CREATED)]
  /\ _callback_information (callback_thread w) = []
  /\ _callback_thread (callback_thread w) = C_Unlock [("a.txt", CREATED)].
Proof.
  pose proof (dispatcher_swaps_then_unlocks Unix sample_os "D" (Some accept)
                (constructed Unix "D" (Some accept))
                [step_watch ReadFailed; step_watch ReadFailed;
                 step_watch (Inotify [named_event IN_CREATE "a.txt"]);
                 step_watch ReadFailed; step_watch ReadFailed;
                 step_callback; step_callback; step_callback]
                eq_refl) as (Hswap & _ & _).
  destruct (Hswap eq_refl) as (_ & Hempty & Hpc & _).
  split; [reflexivity | split; [reflexivity | split; [exact Hempty | exact Hpc]]].
Defined.

(** ** What passes the filter *)

Lemma inotify_entry_passes (w : FileWatch) (event : inotify_event) (queued : QueuedEvent) :
  queued ∈ inotify_entry w event ->
  queued.1 = c_string (name event) /\ len event <> 0 /\ pass_filter Unix w queued.1 = true.
Proof.
  unfold inotify_entry. intros H.
  repeat case_match; try by apply elem_of_nil in H.
  all: apply list_elem_of_singleton in H as ->; simpl; repeat split; try done.
  all: match goal with
       | Hlen : bool_decide (len _ = 0) = false |- _ =>
           by apply bool_decide_eq_false in Hlen
       end.
Qed.

Lemma notify_entry_passes (w : FileWatch) (file_information : FILE_NOTIFY_INFORMATION)
    (entry : list QueuedEvent) (queued : QueuedEvent) :
  notify_entry w file_information = Some entry ->
  queued ∈ entry ->
  queued = (changed_file_of file_information,
            default CREATED (_event_type_mapping !! Action file_information))
  /\ is_Some (_event_type_mapping !! Action file_information)
  /\ pass_filter Win32 w queued.1 = true.
Proof.
  unfold notify_entry. intros H Hq.
  destruct (pass_filter Win32 w (changed_file_of file_information)) eqn:Hpass.
  - destruct (_event_type_mapping !! Action file_information) as [event|]; [|done].
    simpl in H. injection H as <-. apply list_elem_of_singleton in Hq as ->. eauto.
  - injection H as <-. by apply elem_of_nil in Hq.
Qed.

Lemma parse_notify_information_passes (w : FileWatch)
    (records : list FILE_NOTIFY_INFORMATION) (parsed_information : list QueuedEvent)
    (queued : QueuedEvent) :
  parse_notify_information w records = Some parsed_information ->
  queued ∈ parsed_information ->
  pass_filter Win32 w queued.1 = true.
Proof.
  revert parsed_information.
  induction records as [|record records IH]; simpl; intros parsed_information H Hq.
  - injection H as <-. by apply elem_of_nil in Hq.
  - destruct (notify_entry w record) as [entry|] eqn:Hentry; [|done]. simpl in H.
    destruct (bool_decide (NextEntryOffset record = 0)).
    + injection H as <-. by destruct (notify_entry_passes _ _ _ _ Hentry Hq) as (_ & _ & ?).
    + destruct (parse_notify_information w records) as [rest|]; [|done].
      simpl in H. injection H as <-.
      apply elem_of_app in Hq as [Hq | Hq].
      * by destruct (notify_entry_passes _ _ _ _ Hentry Hq) as (_ & _ & ?).
      * by eapply IH.
Qed.

Lemma survivors_pass (platform : Platform) (w : FileWatch) (wake : OsWake)
    (queued : QueuedEvent) :
  queued ∈ survivors platform w wake -> pass_filter platform w queued.1 = true.
Proof.
  unfold survivors, decode.
  destruct platform, wake; simpl; try by intros ?%elem_of_nil.
  - destruct ok; [|by intros ?%elem_of_nil].
    destruct (parse_notify_information w records) as [parsed_information|] eqn:Hparse;
      [|by intros ?%elem_of_nil].
    simpl. by eapply parse_notify_information_passes.
  - destruct (0 <? read_length events); [|by intros ?%elem_of_nil].
    intros (event & _ & Hq)%elem_of_parse_inotify.
    by destruct (inotify_entry_passes _ _ _ Hq) as (_ & _ & ?).
Qed.

Lemma reported_pass (platform : Platform) (w : FileWatch) (queued : QueuedEvent) :
  queued ∈ reported platform w -> pass_filter platform w queued.1 = true.
Proof.
  unfold reported. intros H. apply list_elem_of_In, in_flat_map in H as (wake & _ & H).
  apply list_elem_of_In in H. by eapply survivors_pass.
Qed.

(** What the filter does keep out.  In every run of a session constructed on
    a single file, every name passed to the callback has, after its last
    separator, the watched filename; a name without separator is the watched
    filename. *)
Theorem single_file_delivers_matching_last_component (platform : Platform) (os : Os)
    (path : string) (callback : option Callback) (w0 : FileWatch) (schedule : list Step)
    (queued : QueuedEvent) :
  FileWatch_new platform os path callback = Some w0 ->
  _watching_single_file w0 = true ->
  queued ∈ calls (run platform schedule w0) ->
  _filename (run platform schedule w0) = filename (split_directory_and_file platform path)
  /\ filename (split_directory_and_file platform queued.1)
     = filename (split_directory_and_file platform path)
  /\ (has_separator platform queued.1 = false ->
      queued.1 = filename (split_directory_and_file platform path)).
Proof.
  intros Hnew Hsingle Hq.
  pose proof (FileWatch_new_target _ _ _ _ _ Hnew Hsingle) as Hname.
  destruct (run_same_target platform schedule w0) as (Hsingle' & Hname' & _).
  destruct (callbacks_prefix platform os path callback w0 schedule Hnew) as [rest Hrest].
  assert (Hpass : pass_filter platform (run platform schedule w0) queued.1 = true).
  { apply reported_pass. rewrite Hrest. apply elem_of_app. by left. }
  rewrite <- Hsingle' in Hsingle.
  apply (pass_filter_single _ _ _ Hsingle) in Hpass.
  rewrite Hname', Hname in Hpass.
  split; [by rewrite Hname', Hname | split; [done|]].
  intros Hnone. by rewrite (split_no_separator _ _ Hnone) in Hpass.
Qed.

Lemma single_file_delivers_matching_last_component_witness :
  let w0 := constructed Unix "D/a.txt" (Some accept) in
  let schedule :=
    two_reads (Inotify [named_event IN_CREATE "b.txt"; named_event IN_MODIFY "a.txt"])
              (Inotify [named_event IN_DELETE "c.txt"])
    ++ repeat step_callback 8 in
  calls (run Unix schedule w0) = [("a.txt", CHANGED)]
  /\ _filename (run Unix schedule w0) = "a.txt"
  /\ filename (split_directory_and_file Unix "a.txt")
     = filename (split_directory_and_file Unix "D/a.txt").
Proof.
  split; [reflexivity|].
  pose proof (single_file_delivers_matching_last_component Unix sample_os "D/a.txt"
                (Some accept) (constructed Unix "D/a.txt" (Some accept))
                (two_reads
                   (Inotify [named_event IN_CREATE "b.txt"; named_event IN_MODIFY "a.txt"])
                   (Inotify [named_event IN_DELETE "c.txt"])
                 ++ repeat step_callback 8)
                ("a.txt", CHANGED) eq_refl eq_refl) as H.
  destruct H as (Hname & Hlast & _).
  - vm_compute. apply list_elem_of_here.
  - split; [exact Hname | exact Hlast].
Defined.

(** C1, on the code.  The comment in [pass_filter] says that on a single
    file only that file should trigger action, and the filter compares the
    last component of the reported name only.  On win32 the session on the
    single file [D\a.txt] registers [D\] with its subtree; the record for
    [sub\a.txt], another file, passes the filter and the callback is called
    with a name that is not the watched filename.  (On unix the names
    reported have no separator, so that by the lemma above only the watched
    filename is delivered.) *)
Lemma single_file_delivers_other_name :
  let w0 := constructed Win32 "D\a.txt" (Some accept) in
  let schedule :=
    two_reads (DirectoryChanges true [notification 0 FILE_ACTION_MODIFIED "sub\a.txt"])
              CloseEvent
    ++ repeat step_callback 8 in
  FileWatch_new Win32 sample_os "D\a.txt" (Some accept) = Some w0
  /\ _watching_single_file w0 = true
  /\ _filename w0 = "a.txt"
  /\ calls (run Win32 schedule w0) = [("sub\a.txt", CHANGED)]
  /\ ~ (forall queued, queued ∈ calls (run Win32 schedule w0) -> queued.1 = _filename w0).
Proof.
  repeat split.
  intros H. specialize (H ("sub\a.txt", CHANGED)).
  by assert ("sub\a.txt" = "a.txt") by (apply H; vm_compute; apply list_elem_of_here).
Qed.

(** ** Copy assignment *)

Lemma step_destroy_stays (platform : Platform) (w : FileWatch) (s : Step) :
  _destroy w = true -> _destroy (step platform w s) = true.
Proof. destruct w; simpl. intros ->. destruct s; step_cases. Qed.

Lemma step_stopped (platform : Platform) (history : list Dispatch) (w : FileWatch) (s : Step) :
  stopped history w -> stopped history (step platform w s).
Proof.
  unfold stopped. destruct w; simpl. intros (-> & -> & Hpc).
  destruct s; step_cases.
Qed.

Lemma step_outside_loop (log : list OsWake) (w : FileWatch) (s : Step) :
  outside_loop log w -> outside_loop log (step Unix w s).
Proof.
  unfold outside_loop. destruct w; simpl. intros (-> & -> & Hpc).
  destruct s; step_cases.
Qed.

Lemma copy_assign_result (platform : Platform) (os : Os) (workers : list Step)
    (this_address other_address : N) (w other w' : FileWatch) :
  this_address <> other_address ->
  copy_assign platform os workers this_address other_address w other = Some w' ->
  _destroy w' = true
  /\ _path w' = _path other
  /\ _callback w' = _callback other
  /\ _watch_thread w' = W_Start
  /\ _callback_thread w' = C_Test
  /\ dispatched w' = dispatched (run platform workers (request_stop w))
  /\ os_log w' = os_log (run platform workers (request_stop w)).
Proof.
  intros Hne. unfold copy_assign, destroy.
  rewrite bool_decide_eq_false_2 by done.
  assert (Hflag : _destroy (run platform workers (request_stop w)) = true).
  { apply (run_invariant platform (fun w => _destroy w = true)); [|done].
    intros; by apply step_destroy_stays. }
  destruct (watch_finished _ && callback_finished _); [|done]. simpl.
  destruct (get_directory _ _ _ _) as [[handle w1]|] eqn:Hget; [|done].
  apply get_directory_result in Hget as (single & _ & ->).
  simpl. intros [= <-]. by destruct single.
Qed.

(** C3, on the code.  After a copy assignment between two distinct objects
    the stop flag is still set: the dispatch thread returns at its first step,
    no run of the assigned-to session reaches the range-for again, so the
    callback is never called, and on unix the monitoring thread never reads. *)
Theorem copy_assigned_session_never_delivers (platform : Platform) (os : Os)
    (workers : list Step) (this_address other_address : N) (w other w' : FileWatch) :
  this_address <> other_address ->
  copy_assign platform os workers this_address other_address w other = Some w' ->
  _destroy w' = true
  /\ _callback_thread (callback_thread w') = C_Returned
  /\ forall schedule,
       dispatched (run platform schedule w') = dispatched w'
       /\ calls (run platform schedule w') = calls w'
       /\ (platform = Unix -> os_log (run platform schedule w') = os_log w').
Proof.
  intros Hne Hassign.
  destruct (copy_assign_result _ _ _ _ _ _ _ _ Hne Hassign)
    as (Hflag & _ & _ & Hwatch & Hcallback & _).
  split; [done | split].
  - unfold callback_thread. by rewrite Hcallback, Hflag.
  - intros schedule.
    assert (Hstopped : stopped (dispatched w') (run platform schedule w')).
    { apply run_invariant; [intros; by apply step_stopped|].
      unfold stopped. by rewrite Hflag, Hcallback. }
    destruct Hstopped as (_ & Hsame & _).
    split; [done | split].
    + unfold calls. by rewrite Hsame.
    + intros ->.
      assert (Houtside : outside_loop (os_log w') (run Unix schedule w')).
      { apply run_invariant; [intros; by apply step_outside_loop|].
        unfold outside_loop. by rewrite Hflag, Hwatch. }
      by destruct Houtside as (_ & ? & _).
Qed.

Lemma copy_assigned_session_never_delivers_witness :
  let schedule :=
    two_reads (Inotify [named_event IN_CREATE "a.txt"]) ReadFailed
    ++ repeat step_callback 8 in
  copy_assign Unix sample_os
    [step_callback; step_watch ReadFailed; step_watch ReadFailed]
    1 2 (constructed Unix "E" (Some accept)) (constructed Unix "D" (Some accept))
  = Some copy_assigned_sample
  /\ _path copy_assigned_sample = "D"
  /\ calls (run Unix schedule copy_assigned_sample) = []
  /\ calls (run Unix schedule (constructed Unix "D" (Some accept))) = [("a.txt", CREATED)].
Proof.
  split; [vm_compute; reflexivity | split; [vm_compute; reflexivity |]].
  split; [| vm_compute; reflexivity].
  assert (Hne : (1 <> 2)%N) by discriminate.
  assert (Hassign :
            copy_assign Unix sample_os
              [step_callback; step_watch ReadFailed; step_watch ReadFailed]
              1 2 (constructed Unix "E" (Some accept)) (constructed Unix "D" (Some accept))
            = Some copy_assigned_sample) by (vm_compute; reflexivity).
  destruct (copy_assigned_session_never_delivers Unix sample_os
              [step_callback; step_watch ReadFailed; step_watch ReadFailed]
              1 2 (constructed Unix "E" (Some accept)) (constructed Unix "D" (Some accept))
              copy_assigned_sample Hne Hassign) as (_ & _ & Hnever).
  destruct (Hnever (two_reads (Inotify [named_event IN_CREATE "a.txt"]) ReadFailed
                    ++ repeat step_callback 8)) as (_ & Hcalls & _).
  exact Hcalls.
Defined.

(** ** Errors of the callback *)

(** Steps of the monitoring thread and of the owner leave the dispatch
    thread, its local vector and its history alone. *)
Lemma other_steps_frame (platform : Platform) (w : FileWatch) (s : Step) :
  s <> step_callback ->
  _callback_thread (step platform w s) = _callback_thread w
  /\ dispatched (step platform w s) = dispatched w
  /\ _callback (step platform w s) = _callback w.
Proof. destruct w; simpl. intros Hs. destruct s; step_cases. Qed.

Lemma drain_without_escape (platform : Platform) (callback : Callback)
    (schedule : list Step) :
  forall (w : FileWatch) (drained : list QueuedEvent),
    _callback w = Some callback ->
    _callback_thread w = C_For drained ->
    (forall file, file ∈ drained -> callback file.1 file.2 <> throws_other) ->
    (callback_steps schedule <= length drained)%nat ->
    calls (run platform schedule w) = calls w ++ take (callback_steps schedule) drained
    /\ _callback_thread (run platform schedule w)
       = C_For (drop (callback_steps schedule) drained).
Proof.
  induction schedule as [|s schedule IH]; intros w drained Hcb Hpc Hsafe Hk.
  - simpl. by rewrite take_0, drop_0, app_nil_r.
  - assert (Hcase : s = step_callback \/ s <> step_callback)
      by (destruct s; [by right | by left | by right]).
    destruct Hcase as [-> | Hother].
    + simpl in Hk. destruct drained as [|file following]; [simpl in Hk; lia|].
      simpl in Hk.
      assert (Hfile : callback file.1 file.2 <> throws_other)
        by (apply Hsafe, list_elem_of_here).
      assert (Hstep : calls (callback_thread w) = calls w ++ [file]
                      /\ _callback_thread (callback_thread w) = C_For following
                      /\ _callback (callback_thread w) = Some callback).
      { unfold callback_thread, calls. rewrite Hpc, Hcb.
        destruct (callback file.1 file.2); simpl; rewrite ?flat_map_snoc; done. }
      destruct Hstep as (Hcalls & Hpc' & Hcb').
      destruct (IH (callback_thread w) following Hcb' Hpc') as [H1 H2].
      { intros f Hf. apply Hsafe. by apply list_elem_of_further. }
      { lia. }
      simpl. rewrite H1, H2, Hcalls. by rewrite <- app_assoc.
    + destruct (other_steps_frame platform w s Hother) as (Hpc' & Hd & Hcb').
      assert (Hsame : callback_steps (s :: schedule) = callback_steps schedule)
        by (by destruct s).
      rewrite Hsame in *.
      destruct (IH (step platform w s) drained) as [H1 H2];
        [by rewrite Hcb' | by rewrite Hpc' | done | done |].
      simpl. rewrite H1, H2. unfold calls. by rewrite Hd.
Qed.

(** C7, as amended.  When the callback, on the elements of one drain, only
    returns or throws objects derived from [std::exception], every element of
    the drain is passed to the callback, in order, whatever the other threads
    do meanwhile: an exception on one element does not keep the later ones
    from the callback. *)
Theorem std_exception_does_not_stop_dispatch (platform : Platform) (w : FileWatch)
    (callback : Callback) (drained : list QueuedEvent) (schedule : list Step) :
  _callback w = Some callback ->
  _callback_thread w = C_For drained ->
  (forall file, file ∈ drained ->
     callback file.1 file.2 = returns \/ callback file.1 file.2 = throws_std_exception) ->
  callback_steps schedule = length drained ->
  calls (run platform schedule w) = calls w ++ drained
  /\ _callback_thread (run platform schedule w) = C_For [].
Proof.
  intros Hcb Hpc Hsafe Hk.
  destruct (drain_without_escape platform callback schedule w drained Hcb Hpc) as [H1 H2].
  - intros file Hfile. destruct (Hsafe file Hfile) as [-> | ->]; done.
  - lia.
  - rewrite Hk in H1, H2. by rewrite firstn_all in H1; rewrite drop_all in H2.
Qed.

Lemma std_exception_does_not_stop_dispatch_witness :
  _callback_thread (draining (std_error_on "a.txt"))
  = C_For [("a.txt", CREATED); ("b.txt", CREATED)]
  /\ dispatched (run Unix [step_callback; step_callback] (draining (std_error_on "a.txt")))
     = [Invoked ("a.txt", CREATED) throws_std_exception; Invoked ("b.txt", CREATED) returns]
  /\ calls (run Unix [step_callback; step_callback] (draining (std_error_on "a.txt")))
     = [("a.txt", CREATED); ("b.txt", CREATED)].
Proof.
  split; [reflexivity | split; [reflexivity|]].
  refine (proj1 (std_exception_does_not_stop_dispatch Unix (draining (std_error_on "a.txt"))
                   (std_error_on "a.txt") [("a.txt", CREATED); ("b.txt", CREATED)]
                   [step_callback; step_callback] eq_refl eq_refl _ eq_refl)).
  intros file Hfile.
  apply elem_of_cons in Hfile as [-> | Hfile]; [by right|].
  apply list_elem_of_singleton in Hfile as ->. by left.
Defined.

Lemma step_dispatch_ended (platform : Platform) (history : list Dispatch) (w : FileWatch)
    (s : Step) :
  dispatch_ended history w -> dispatch_ended history (step platform w s).
Proof.
  unfold dispatch_ended, callback_finished. destruct w; simpl. intros (-> & Hpc).
  destruct s; step_cases.
Qed.

(** C7, as stated, fails: the callback throws an object that is not a
    [std::exception] for [a.txt]; the thread ends and [b.txt], queued behind
    it in the same drain, is never passed to the callback. *)
Lemma foreign_exception_stops_dispatch :
  let w := draining (foreign_error_on "a.txt") in
  _callback_thread w = C_For [("a.txt", CREATED); ("b.txt", CREATED)]
  /\ _callback_thread (callback_thread w) = C_Threw [("b.txt", CREATED)]
  /\ forall schedule,
       dispatched (run Unix schedule (callback_thread w))
       = [Invoked ("a.txt", CREATED) throws_other].
Proof.
  split; [reflexivity | split; [reflexivity|]].
  intros schedule.
  assert (H : dispatch_ended [Invoked ("a.txt", CREATED) throws_other]
                (run Unix schedule (callback_thread (draining (foreign_error_on "a.txt"))))).
  { apply run_invariant; [intros; by apply step_dispatch_ended|]. by split. }
  by destruct H.
Qed.

(** ** Action codes *)

Lemma event_type_mapping_lookup (code : Z) :
  _event_type_mapping !! code =
    if bool_decide (code = FILE_ACTION_ADDED) then Some CREATED
    else if bool_decide (code = FILE_ACTION_REMOVED) then Some DELETED
    else if bool_decide (code = FILE_ACTION_MODIFIED) then Some CHANGED
    else if bool_decide (code = FILE_ACTION_RENAMED_OLD_NAME) then Some RENAMED_OLD
    else if bool_decide (code = FILE_ACTION_RENAMED_NEW_NAME) then Some RENAMED_NEW
    else None.
Proof.
  unfold _event_type_mapping.
  repeat (rewrite lookup_insert; case_decide; [subst code; reflexivity |]).
  rewrite lookup_empty.
  repeat (case_bool_decide; [congruence|]). done.
Qed.

Lemma parse_notify_information_some (w : FileWatch)
    (records : list FILE_NOTIFY_INFORMATION) (parsed_information : list QueuedEvent) :
  parse_notify_information w records = Some parsed_information ->
  parsed_information = flat_map (mapped_entry w) (chain records).
Proof.
  revert parsed_information.
  induction records as [|record records IH]; simpl; intros parsed_information H.
  - by injection H as <-.
  - assert (Hentry : forall entry, notify_entry w record = Some entry ->
                       entry = mapped_entry w record).
    { unfold notify_entry, mapped_entry. intros entry.
      destruct (pass_filter Win32 w (changed_file_of record)); [|by intros [= <-]].
      destruct (_event_type_mapping !! Action record); [by intros [= <-] | done]. }
    destruct (notify_entry w record) as [entry|]; [|done]. simpl in H.
    rewrite (Hentry entry eq_refl) in H.
    destruct (bool_decide (NextEntryOffset record = 0)).
    + injection H as <-. simpl. by rewrite app_nil_r.
    + destruct (parse_notify_information w records) as [rest|]; [|done].
      simpl in H. injection H as <-. simpl. by rewrite (IH rest).
Qed.

Lemma notify_entry_none (w : FileWatch) (record : FILE_NOTIFY_INFORMATION) :
  notify_entry w record = None <->
  pass_filter Win32 w (changed_file_of record) = true
  /\ _event_type_mapping !! Action record = None.
Proof.
  unfold notify_entry.
  destruct (pass_filter Win32 w (changed_file_of record)).
  - destruct (_event_type_mapping !! Action record); simpl; split; try done.
    by intros [_ ?].
  - split; [done | by intros [? _]].
Qed.

Lemma parse_notify_information_none (w : FileWatch)
    (records : list FILE_NOTIFY_INFORMATION) :
  parse_notify_information w records = None <->
  exists record,
    record ∈ chain records
    /\ pass_filter Win32 w (changed_file_of record) = true
    /\ _event_type_mapping !! Action record = None.
Proof.
  induction records as [|record records IH]; simpl.
  - split; [done | by intros (? & ?%elem_of_nil & _)].
  - destruct (notify_entry w record) as [entry|] eqn:Hentry; simpl.
    + assert (Hnot : ~ (pass_filter Win32 w (changed_file_of record) = true
                        /\ _event_type_mapping !! Action record = None)).
      { rewrite <- notify_entry_none. congruence. }
      destruct (bool_decide (NextEntryOffset record = 0)).
      * split; [done|]. intros (r & ->%list_elem_of_singleton & Hr). by destruct Hnot.
      * destruct (parse_notify_information w records) as [rest|]; simpl.
        -- split; [done|]. intros (r & Hin & Hr).
           apply elem_of_cons in Hin as [-> | Hin]; [by destruct Hnot|].
           assert (Hnone : Some rest = None) by (apply IH; eauto). done.
        -- split; [|done]. intros _.
           destruct (proj1 IH eq_refl) as (r & Hin & Hr).
           exists r. split; [by apply list_elem_of_further | done].
    + split; [|done]. intros _. apply notify_entry_none in Hentry.
      exists record. split; [|done].
      destruct (bool_decide (NextEntryOffset record = 0)); apply list_elem_of_here.
Qed.

Lemma inotify_entry_mapping (w : FileWatch) (event : inotify_event) (queued : QueuedEvent) :
  queued ∈ inotify_entry w event ->
  queued.1 = c_string (name event)
  /\ ((Z.land (mask event) IN_CREATE <> 0 /\ queued.2 = CREATED)
      \/ (Z.land (mask event) IN_CREATE = 0 /\ Z.land (mask event) IN_DELETE <> 0
          /\ queued.2 = DELETED)
      \/ (Z.land (mask event) IN_CREATE = 0 /\ Z.land (mask event) IN_DELETE = 0
          /\ Z.land (mask event) IN_MODIFY <> 0 /\ queued.2 = CHANGED)).
Proof.
  unfold inotify_entry. intros H.
  repeat case_bool_decide; repeat case_match; try by apply elem_of_nil in H.
  all: apply list_elem_of_singleton in H as ->; simpl; split; [done|]; tauto.
Qed.

Lemma inotify_entry_unmapped (w : FileWatch) (event : inotify_event) :
  Z.land (mask event) IN_CREATE = 0 ->
  Z.land (mask event) IN_DELETE = 0 ->
  Z.land (mask event) IN_MODIFY = 0 ->
  inotify_entry w event = [].
Proof.
  intros Hc Hd Hm. unfold inotify_entry.
  rewrite !(bool_decide_eq_true_2 _ Hc), !(bool_decide_eq_true_2 _ Hd),
    !(bool_decide_eq_true_2 _ Hm).
  by repeat case_match.
Qed.

(** C4, as amended.  The win32 table maps the five action codes to the five
    variants and nothing else.  A win32 batch that decodes gives, for each
    record of the chain that passes the filter, the pair of its name and the
    table's variant, in order; it fails to decode exactly when a record of the
    chain passes the filter with a code outside the table.  A unix batch
    always decodes: each event gives at most one pair, [CREATED], [DELETED] or
    [CHANGED] by the first of the create, delete and modify bits that is set,
    and an event with none of the three bits is dropped. *)
Theorem action_codes_follow_the_table :
  (forall code,
      _event_type_mapping !! code =
        if bool_decide (code = FILE_ACTION_ADDED) then Some CREATED
        else if bool_decide (code = FILE_ACTION_REMOVED) then Some DELETED
        else if bool_decide (code = FILE_ACTION_MODIFIED) then Some CHANGED
        else if bool_decide (code = FILE_ACTION_RENAMED_OLD_NAME) then Some RENAMED_OLD
        else if bool_decide (code = FILE_ACTION_RENAMED_NEW_NAME) then Some RENAMED_NEW
        else None)
  /\ (forall (w : FileWatch) (records : list FILE_NOTIFY_INFORMATION),
        (forall parsed_information,
            decode Win32 w (DirectoryChanges true records) = Some parsed_information ->
            parsed_information = flat_map (mapped_entry w) (chain records))
        /\ (decode Win32 w (DirectoryChanges true records) = None <->
            exists record,
              record ∈ chain records
              /\ pass_filter Win32 w (changed_file_of record) = true
              /\ _event_type_mapping !! Action record = None))
  /\ (forall (w : FileWatch) (events : list inotify_event),
        is_Some (decode Unix w (Inotify events))
        /\ (forall event queued,
              queued ∈ inotify_entry w event ->
              queued.1 = c_string (name event)
              /\ ((Z.land (mask event) IN_CREATE <> 0 /\ queued.2 = CREATED)
                  \/ (Z.land (mask event) IN_CREATE = 0
                      /\ Z.land (mask event) IN_DELETE <> 0 /\ queued.2 = DELETED)
                  \/ (Z.land (mask event) IN_CREATE = 0
                      /\ Z.land (mask event) IN_DELETE = 0
                      /\ Z.land (mask event) IN_MODIFY <> 0 /\ queued.2 = CHANGED)))
        /\ (forall event,
              Z.land (mask event) IN_CREATE = 0 ->
              Z.land (mask event) IN_DELETE = 0 ->
              Z.land (mask event) IN_MODIFY = 0 ->
              inotify_entry w event = [])).
Proof.
  split; [apply event_type_mapping_lookup | split].
  - intros w records. simpl. split.
    + apply parse_notify_information_some.
    + apply parse_notify_information_none.
  - intros w events. split; [by eexists | split].
    + apply inotify_entry_mapping.
    + apply inotify_entry_unmapped.
Qed.

Lemma action_codes_follow_the_table_witness :
  decode Win32 (constructed Win32 "D" (Some accept))
    (DirectoryChanges true
       [notification 1 FILE_ACTION_ADDED "a.txt"; notification 1 FILE_ACTION_REMOVED "b.txt";
        notification 1 FILE_ACTION_MODIFIED "c.txt";
        notification 1 FILE_ACTION_RENAMED_OLD_NAME "d.txt";
        notification 0 FILE_ACTION_RENAMED_NEW_NAME "e.txt"])
  = Some [("a.txt", CREATED); ("b.txt", DELETED); ("c.txt", CHANGED);
          ("d.txt", RENAMED_OLD); ("e.txt", RENAMED_NEW)]
  /\ inotify_entry (constructed Unix "D" (Some accept)) (named_event IN_MOVED_FROM "a.txt") = [].
Proof.
  destruct action_codes_follow_the_table as (_ & _ & Hunix).
  split; [reflexivity|].
  destruct (Hunix (constructed Unix "D" (Some accept)) []) as (_ & _ & Hdrop).
  apply Hdrop; reflexivity.
Defined.

(** C4, as stated, fails on win32: the second record of the batch carries an
    action code that is not a key of [_event_type_mapping]
    ([FILE_ACTION_ADDED_STREAM], 6); [at] throws, nothing of the batch is
    enqueued, the record before it included, and the monitoring thread ends. *)
Lemma unknown_action_code_throws :
  let w0 := constructed Win32 "D" (Some accept) in
  let wake :=
    DirectoryChanges true
      [notification 1 FILE_ACTION_ADDED "a.txt"; notification 0 6 "b.txt"] in
  _event_type_mapping !! 6 = None
  /\ decode Win32 w0 wake = None
  /\ _watch_thread (run Win32 (two_reads wake CloseEvent) w0) = W_Threw
  /\ _callback_information (run Win32 (two_reads wake CloseEvent) w0) = []
  /\ ~ (forall w records, is_Some (decode Win32 w (DirectoryChanges true records))).
Proof.
  repeat split; try reflexivity.
  intros H.
  destruct (H (constructed Win32 "D" (Some accept))
              [notification 1 FILE_ACTION_ADDED "a.txt"; notification 0 6 "b.txt"])
    as [parsed_information Hsome].
  vm_compute in Hsome. discriminate.
Qed.

(** ** One wake-up, from the operating system to the callback *)

(** Runs the innermost thread step of the goal on a state whose members are
    all known. *)
Ltac thread_step :=
  match goal with
  | |- context [monitor_directory ?p ?k (mkFileWatch ?a ?b ?c ?d ?e ?f ?g ?h ?i ?j ?l ?m ?n)] =>
      let t := constr:(monitor_directory p k (mkFileWatch a b c d e f g h i j l m n)) in
      let t' := eval cbv beta iota zeta delta
                  [monitor_directory wake_of set_exception
                   set_path set_watching_single_file set_filename set_destroy set_callback
                   set_watch_thread set_callback_mutex set_callback_information
                   set_callback_thread set_running set_directory set_os_log set_dispatched
                   _path _watching_single_file _filename _destroy _callback _watch_thread
                   _callback_mutex _callback_information _callback_thread _running
                   _directory os_log dispatched] in t in
      change t with t'
  | |- context [callback_thread (mkFileWatch ?a ?b ?c ?d ?e ?f ?g ?h ?i ?j ?l ?m ?n)] =>
      let t := constr:(callback_thread (mkFileWatch a b c d e f g h i j l m n)) in
      let t' := eval cbv beta iota zeta delta
                  [callback_thread wake_condition set_exception
                   set_path set_watching_single_file set_filename set_destroy set_callback
                   set_watch_thread set_callback_mutex set_callback_information
                   set_callback_thread set_running set_directory set_os_log set_dispatched
                   _path _watching_single_file _filename _destroy _callback _watch_thread
                   _callback_mutex _callback_information _callback_thread _running
                   _directory os_log dispatched] in t in
      change t with t'
  end.




(** ** Directory targets *)










(** ** More on [split_directory_and_file] *)

Lemma has_separator_app (platform : Platform) (a b : string) :
  has_separator platform (a +:+ b) = has_separator platform a || has_separator platform b.
Proof. unfold has_separator. by rewrite list_ascii_of_string_app, existsb_app. Qed.

Lemma string_app_assoc (a b c : string) : (a +:+ b) +:+ c = a +:+ (b +:+ c).
Proof.
  induction a as [|x a IH]; [done|].
  change (String x ((a +:+ b) +:+ c) = String x (a +:+ (b +:+ c))). by rewrite IH.
Qed.

Lemma slash_is_separator (platform : Platform) : predict platform "/"%char = true.
Proof. by destruct platform. Qed.

(** The filename part holds no separator, and the two parts, joined, are the
    path, behind [./] when the path holds no separator. *)
Lemma split_parts_join (platform : Platform) (path : string) :
  has_separator platform (filename (split_directory_and_file platform path)) = false
  /\ directory (split_directory_and_file platform path)
     +:+ filename (split_directory_and_file platform path)
     = (if has_separator platform path then path else "./" +:+ path).
Proof.
  destruct (last_separator_cases platform (list_ascii_of_string path))
    as [Hnone | (before & separator & after & Hpath & Hs & Ha)].
  - assert (Hno : has_separator platform path = false) by done.
    by rewrite (split_no_separator _ _ Hno), Hno.
  - set (b := string_of_list_ascii before). set (a := string_of_list_ascii after).
    assert (Heq : path = b +:+ String separator a).
    { rewrite <- (string_of_list_ascii_of_string path), Hpath.
      by rewrite string_of_list_ascii_app. }
    assert (Hafter : has_separator platform a = false).
    { unfold has_separator, a. by rewrite list_ascii_of_string_of_list_ascii. }
    assert (Hhas : has_separator platform path = true).
    { rewrite Heq, has_separator_app.
      unfold has_separator at 2. simpl. rewrite Hs. simpl. apply orb_true_r. }
    rewrite Hhas. clear Hpath Hhas. subst path.
    rewrite (split_at_last_separator _ _ _ _ Hs Hafter). simpl.
    split; [done | by rewrite string_app_assoc].
Qed.

(** X1.  The two parts [split_directory_and_file] returns: the filename holds
    no separator; the directory is never empty and ends with a separator;
    joined, the parts give the path back when it holds a separator and the
    path behind [./] when it holds none; and splitting the joined parts again
    gives the same two parts. *)
Theorem split_directory_and_file_parts (platform : Platform) (path : string) :
  let parts := split_directory_and_file platform path in
  has_separator platform (filename parts) = false
  /\ (exists before separator,
        directory parts = before +:+ String separator ""
        /\ predict platform separator = true)
  /\ directory parts +:+ filename parts
     = (if has_separator platform path then path else "./" +:+ path)
  /\ split_directory_and_file platform (directory parts +:+ filename parts) = parts
  /\ split_directory_and_file platform (filename parts) = mkPathParts "./" (filename parts).
Proof.
  intros parts. unfold parts.
  destruct (last_separator_cases platform (list_ascii_of_string path))
    as [Hnone | (before & separator & after & Hpath & Hs & Ha)].
  - assert (Hno : has_separator platform path = false) by done.
    rewrite (split_no_separator _ _ Hno), Hno. simpl.
    split; [done | split; [| split; [done | split]]].
    + exists ".", "/"%char. split; [done | apply slash_is_separator].
    + apply (split_at_last_separator platform "." "/" path);
        [apply slash_is_separator | done].
    + by apply split_no_separator.
  - set (b := string_of_list_ascii before). set (a := string_of_list_ascii after).
    assert (Heq : path = b +:+ String separator a).
    { rewrite <- (string_of_list_ascii_of_string path), Hpath.
      by rewrite string_of_list_ascii_app. }
    assert (Hafter : has_separator platform a = false).
    { unfold has_separator, a. by rewrite list_ascii_of_string_of_list_ascii. }
    assert (Hhas : has_separator platform path = true).
    { rewrite Heq, has_separator_app.
      unfold has_separator at 2. simpl. rewrite Hs. simpl. apply orb_true_r. }
    rewrite Hhas. clear Hpath Hhas. subst path.
    rewrite (split_at_last_separator _ _ _ _ Hs Hafter). simpl.
    assert (Hjoin : (b +:+ String separator "") +:+ a = b +:+ String separator a).
    { by rewrite string_app_assoc. }
    split; [done | split; [by exists b, separator | split; [exact Hjoin | split]]].
    + rewrite Hjoin. by apply split_at_last_separator.
    + by apply split_no_separator.
Qed.

(** ** Names in the buffers *)

Lemma c_string_app_nul (entry padding : string) :
  no_nul entry = true -> c_string (entry +:+ String "000" padding) = entry.
Proof.
  unfold no_nul. induction entry as [|c entry IH]; intros H; [done|].
  simpl in H. apply andb_true_iff in H as [Hc H].
  change (c_string (String c (entry +:+ String "000" padding)) = String c entry).
  simpl. destruct (bool_decide (c = "000"%char)); [done|]. by rewrite IH.
Qed.

Lemma c_string_no_nul (bytes : string) : no_nul (c_string bytes) = true.
Proof.
  unfold no_nul. induction bytes as [|c bytes IH]; [done|].
  simpl. destruct (bool_decide (c = "000"%char)) eqn:Hc; [done|].
  simpl. by rewrite Hc, IH.
Qed.

Lemma c_string_fixed (s : string) : no_nul s = true -> c_string s = s.
Proof.
  unfold no_nul. induction s as [|c s IH]; intros H; [done|].
  simpl in H. apply andb_true_iff in H as [Hc H].
  simpl. destruct (bool_decide (c = "000"%char)); [done|]. by rewrite IH.
Qed.

(** X2.  The name the unix branch reads from an event is the entry's name
    however the kernel padded it: for a name without NUL byte followed by at
    least one NUL and any further bytes, the decoded string is the name; a
    decoded name never holds a NUL byte; and two events that differ only in
    the padding contribute the same elements to the queue. *)
Theorem inotify_name_ignores_padding (w : FileWatch) (entry padding padding' : string)
    (wd wd' bits cookie cookie' size size' : Z) :
  no_nul entry = true ->
  size <> 0 -> size' <> 0 ->
  c_string (entry +:+ String "000" padding) = entry
  /\ no_nul (c_string (entry +:+ String "000" padding)) = true
  /\ inotify_entry w (mk_inotify_event wd bits cookie size (entry +:+ String "000" padding))
     = inotify_entry w
         (mk_inotify_event wd' bits cookie' size' (entry +:+ String "000" padding')).
Proof.
  intros Hentry Hlen Hlen'.
  split; [by apply c_string_app_nul | split; [apply c_string_no_nul|]].
  unfold inotify_entry. simpl.
  rewrite !c_string_app_nul by done.
  by rewrite (bool_decide_eq_false_2 _ Hlen), (bool_decide_eq_false_2 _ Hlen').
Qed.

Lemma inotify_name_ignores_padding_witness :
  inotify_entry (constructed Unix "D" (Some accept))
    (mk_inotify_event 1 IN_CREATE 0 16 ("a.txt" +:+ String "000" "0123456789"))
  = inotify_entry (constructed Unix "D" (Some accept)) (named_event IN_CREATE "a.txt").
Proof.
  assert (H16 : 16 <> 0) by discriminate.
  assert (H6 : Z.of_nat (String.length "a.txt") + 1 <> 0) by discriminate.
  exact (proj2 (proj2 (inotify_name_ignores_padding (constructed Unix "D" (Some accept))
                         "a.txt" "0123456789" "" 1 1 IN_CREATE 0 0 16
                         (Z.of_nat (String.length "a.txt") + 1) eq_refl H16 H6))).
Defined.

(** X3.  The win32 decoder stops at the first record whose [NextEntryOffset]
    is 0: whatever follows it in the buffer changes neither the decoded
    elements nor whether decoding throws. *)
Theorem notify_chain_ends_at_zero_offset (w : FileWatch)
    (before : list FILE_NOTIFY_INFORMATION) (last : FILE_NOTIFY_INFORMATION)
    (after : list FILE_NOTIFY_INFORMATION) :
  (forall record, record ∈ before -> NextEntryOffset record <> 0) ->
  NextEntryOffset last = 0 ->
  parse_notify_information w (before ++ last :: after)
  = parse_notify_information w (before ++ [last]).
Proof.
  intros Hbefore Hlast.
  induction before as [|record before IH]; simpl.
  - by rewrite (bool_decide_eq_true_2 _ Hlast).
  - rewrite IH; [done|]. intros r Hr. apply Hbefore. by apply list_elem_of_further.
Qed.

Lemma notify_chain_ends_at_zero_offset_witness :
  parse_notify_information (constructed Win32 "D" (Some accept))
    [notification 1 FILE_ACTION_ADDED "a.txt"; notification 0 FILE_ACTION_MODIFIED "a.txt";
     notification 0 6 "stale"]
  = Some [("a.txt", CREATED); ("a.txt", CHANGED)].
Proof.
  etrans.
  - apply (notify_chain_ends_at_zero_offset (constructed Win32 "D" (Some accept))
             [notification 1 FILE_ACTION_ADDED "a.txt"]
             (notification 0 FILE_ACTION_MODIFIED "a.txt")
             [notification 0 6 "stale"]).
    + intros record Hrecord. apply list_elem_of_singleton in Hrecord as ->. discriminate.
    + reflexivity.
  - vm_compute. reflexivity.
Defined.

(** ** Construction *)

Lemma FileWatch_new_resolved (platform : Platform) (os : Os) (path : string)
    (callback : option Callback) (w : FileWatch) :
  FileWatch_new platform os path callback = Some w ->
  exists type,
    file_type os path = Some type
    /\ _path w = path
    /\ _watching_single_file w = single_file_type platform type
    /\ _filename w = (if single_file_type platform type
                      then filename (split_directory_and_file platform path) else "")
    /\ _directory w
       = mkWatchHandle (if single_file_type platform type
                        then directory (split_directory_and_file platform path)
                        else path) true
    /\ can_watch os (watch_path (_directory w)) = true.
Proof.
  unfold FileWatch_new, get_directory, is_file, not_a_directory. intros H.
  destruct platform.
  - destruct (file_type os path) as [type|]; [|done]. simpl in H.
    exists type. destruct type; simpl in *;
      match type of H with context [can_watch os ?p] =>
        destruct (can_watch os p) eqn:Hwatch; [|done] end;
      simpl in H; injection H as <-; done.
  - destruct (can_init os); [|done].
    destruct (file_type os path) as [type|]; [|done]. simpl in H.
    exists type. destruct type; simpl in *;
      match type of H with context [can_watch os ?p] =>
        destruct (can_watch os p) eqn:Hwatch; [|done] end;
      simpl in H; injection H as <-; done.
Qed.

(** X4.  What a successful construction has registered: the path exists; it
    is taken as a single file exactly when it is a regular file on unix and
    anything but a directory on win32; for a directory target the path itself
    is registered; for a single file the registered directory and the filter,
    joined, are the path (behind [./] when the path holds no separator), and
    the filter holds no separator. *)
Theorem constructor_registers_target (platform : Platform) (os : Os) (path : string)
    (callback : option Callback) (w : FileWatch) :
  FileWatch_new platform os path callback = Some w ->
  exists type,
    file_type os path = Some type
    /\ _watching_single_file w = single_file_type platform type
    /\ is_open (_directory w) = true
    /\ can_watch os (watch_path (_directory w)) = true
    /\ (if _watching_single_file w
        then watch_path (_directory w) +:+ _filename w
             = (if has_separator platform path then path else "./" +:+ path)
             /\ has_separator platform (_filename w) = false
        else watch_path (_directory w) = path).
Proof.
  intros Hnew.
  destruct (FileWatch_new_resolved _ _ _ _ _ Hnew)
    as (type & Htype & _ & Hsingle & Hname & Hdir & Hwatch).
  exists type. rewrite Hsingle, Hname, Hdir in *. simpl.
  split; [done | split; [done | split; [done | split; [done|]]]].
  destruct (split_parts_join platform path) as (Hsep & Hjoin).
  destruct (single_file_type platform type); [by split | done].
Qed.

Lemma constructor_registers_target_witness :
  _watching_single_file (constructed Unix "D/a.txt" (Some accept)) = true
  /\ watch_path (_directory (constructed Unix "D/a.txt" (Some accept))) = "D/"
  /\ _filename (constructed Unix "D/a.txt" (Some accept)) = "a.txt"
  /\ exists type, file_type sample_os "D/a.txt" = Some type.
Proof.
  split; [reflexivity | split; [reflexivity | split; [reflexivity|]]].
  destruct (constructor_registers_target Unix sample_os "D/a.txt" (Some accept)
              (constructed Unix "D/a.txt" (Some accept)) eq_refl) as (type & Htype & _).
  by exists type.
Defined.

(** X5.  [get_directory] throws exactly when the operating system refuses
    one of its three calls: [inotify_init] (unix only), the query of the path
    ([stat], [GetFileAttributes]), or the registration of the directory to
    watch ([inotify_add_watch], [CreateFile]): the directory part of the path
    for a single file, the path itself otherwise. *)
Theorem get_directory_fails_on_refusal (platform : Platform) (os : Os) (path : string)
    (w : FileWatch) :
  get_directory platform os path w = None <->
  (platform = Unix /\ can_init os = false)
  \/ file_type os path = None
  \/ exists type,
       file_type os path = Some type
       /\ can_watch os (if single_file_type platform type
                        then directory (split_directory_and_file platform path)
                        else path) = false.
Proof.
  unfold get_directory, is_file, not_a_directory.
  destruct platform; simpl.
  - destruct (file_type os path) as [type|]; simpl.
    + destruct type; simpl;
        match goal with |- context [can_watch os ?p] =>
          destruct (can_watch os p) eqn:Hwatch end; simpl;
        (split; [try done; intros _; right; right; by eexists |]);
        try done;
        intros [[? _] | [? | (t & [= <-] & Hno)]]; try done; simpl in Hno; congruence.
    + split; [by intros _; right; left | done].
  - destruct (can_init os); [|split; [by intros _; left | done]].
    destruct (file_type os path) as [type|]; simpl.
    + destruct type; simpl;
        match goal with |- context [can_watch os ?p] =>
          destruct (can_watch os p) eqn:Hwatch end; simpl;
        (split; [try done; intros _; right; right; by eexists |]);
        try done;
        intros [[_ ?] | [? | (t & [= <-] & Hno)]]; try done; simpl in Hno; congruence.
    + split; [by intros _; right; left | done].
Qed.

(** ** Copy construction *)

Lemma step_path (platform : Platform) (w : FileWatch) (s : Step) :
  _path (step platform w s) = _path w.
Proof. destruct w, s; step_cases. Qed.

Lemma run_path (platform : Platform) (schedule : list Step) (w : FileWatch) :
  _path (run platform schedule w) = _path w.
Proof.
  apply (run_invariant platform (fun w' => _path w' = _path w)); [|done].
  intros w' s <-. apply step_path.
Qed.

(** X6.  Copy construction ignores what the original has done: the copy of a
    session, taken at any point of any run and with the file system
    answering as it did for the original, is the session as the constructor
    first built it, with the stop flag clear, nothing queued, no history. *)
Theorem copy_is_a_fresh_session (platform : Platform) (os : Os) (path : string)
    (callback : option Callback) (w0 : FileWatch) (schedule : list Step) :
  FileWatch_new platform os path callback = Some w0 ->
  FileWatch_copy platform os (run platform schedule w0) = Some w0
  /\ _destroy w0 = false /\ _callback_information w0 = [] /\ dispatched w0 = [].
Proof.
  intros Hnew.
  destruct (FileWatch_new_fresh _ _ _ _ _ Hnew)
    as (Hflag & Hcb & _ & _ & _ & Hqueue & _ & _ & Hdispatched).
  destruct (FileWatch_new_resolved _ _ _ _ _ Hnew) as (_ & _ & Hpath & _).
  destruct (run_same_target platform schedule w0) as (_ & _ & Hsame).
  unfold FileWatch_copy. rewrite run_path, Hsame, Hpath, Hcb.
  by rewrite Hnew.
Qed.

Lemma copy_is_a_fresh_session_witness :
  let stopped_original :=
    run Unix (two_reads (Inotify [named_event IN_CREATE "a.txt"]) ReadFailed
              ++ repeat step_callback 8 ++ [step_stop])
      (constructed Unix "D" (Some accept)) in
  _destroy stopped_original = true
  /\ calls stopped_original = [("a.txt", CREATED)]
  /\ FileWatch_copy Unix sample_os stopped_original = Some (constructed Unix "D" (Some accept)).
Proof.
  split; [vm_compute; reflexivity | split; [vm_compute; reflexivity|]].
  assert (Hnew : FileWatch_new Unix sample_os "D" (Some accept)
                 = Some (constructed Unix "D" (Some accept))) by (vm_compute; reflexivity).
  exact (proj1 (copy_is_a_fresh_session Unix sample_os "D" (Some accept)
                  (constructed Unix "D" (Some accept))
                  (two_reads (Inotify [named_event IN_CREATE "a.txt"]) ReadFailed
                   ++ repeat step_callback 8 ++ [step_stop]) Hnew)).
Defined.

(** ** The mutex and the queue *)

(** X7.  In every run of a constructed session [_callback_mutex] is owned by
    the dispatch thread exactly between its lock and its unlock and by the
    monitoring thread exactly around its insert; the two are never there
    together; and a step changes the queue only if its thread owns the mutex. *)
Theorem queue_changes_only_under_the_mutex (platform : Platform) (os : Os) (path : string)
    (callback : option Callback) (w0 : FileWatch) (schedule : list Step) (s : Step) :
  FileWatch_new platform os path callback = Some w0 ->
  let w := run platform schedule w0 in
  (_callback_mutex w = Some Dispatcher <-> dispatcher_in_critical w = true)
  /\ (_callback_mutex w = Some Watcher <-> watcher_in_critical w = true)
  /\ ~ (dispatcher_in_critical w = true /\ watcher_in_critical w = true)
  /\ (_callback_information (step platform w s) <> _callback_information w ->
      (s = step_callback /\ _callback_mutex w = Some Dispatcher)
      \/ (exists wake, s = step_watch wake /\ _callback_mutex w = Some Watcher)).
Proof.
  intros Hnew w.
  destruct (constructed_run _ _ _ _ _ schedule Hnew) as (_ & _ & _ & Hlock & Hexcl).
  fold w in Hlock, Hexcl.
  assert (Hd : _callback_mutex w = Some Dispatcher <-> dispatcher_in_critical w = true).
  { rewrite Hlock. destruct (dispatcher_in_critical w), (watcher_in_critical w); done. }
  assert (Hw : _callback_mutex w = Some Watcher <-> watcher_in_critical w = true).
  { rewrite Hlock.
    destruct (dispatcher_in_critical w), (watcher_in_critical w); simpl in *; done. }
  split; [done | split; [done | split]].
  - intros [H1 H2]. by rewrite H1, H2 in Hexcl.
  - intros Hchange. destruct s as [wake| |].
    + right. exists wake. split; [done|]. apply Hw.
      unfold watcher_in_critical. simpl in Hchange. unfold monitor_directory in Hchange.
      destruct (_watch_thread w); try done; exfalso; apply Hchange;
        repeat (case_match; simpl; simpl_exception; try done).
    + left. split; [done|]. apply Hd.
      unfold dispatcher_in_critical. simpl in Hchange. unfold callback_thread in Hchange.
      destruct (_callback_thread w); try done; exfalso; apply Hchange;
        repeat (case_match; simpl; simpl_exception; try done).
    + by destruct Hchange.
Qed.

Lemma queue_changes_only_under_the_mutex_witness :
  let w := run Unix
             [step_watch ReadFailed; step_watch ReadFailed;
              step_watch (Inotify [named_event IN_CREATE "a.txt"]); step_watch ReadFailed]
             (constructed Unix "D" (Some accept)) in
  _watch_thread w = W_Insert [("a.txt", CREATED)]
  /\ _callback_information (step Unix w (step_watch ReadFailed)) = [("a.txt", CREATED)]
  /\ _callback_mutex w = Some Watcher.
Proof.
  split; [vm_compute; reflexivity | split; [vm_compute; reflexivity|]].
  assert (Hnew : FileWatch_new Unix sample_os "D" (Some accept)
                 = Some (constructed Unix "D" (Some accept))) by (vm_compute; reflexivity).
  destruct (queue_changes_only_under_the_mutex Unix sample_os "D" (Some accept)
              (constructed Unix "D" (Some accept))
              [step_watch ReadFailed; step_watch ReadFailed;
               step_watch (Inotify [named_event IN_CREATE "a.txt"]); step_watch ReadFailed]
              (step_watch ReadFailed) Hnew) as (_ & Hwatcher & _).
  apply Hwatcher. vm_compute. reflexivity.
Defined.

(** ** Stopping *)

Lemma step_stopped_with_queue (platform : Platform) (history : list Dispatch)
    (queued : list QueuedEvent) (w : FileWatch) (s : Step) :
  stopped_with_queue history queued w ->
  stopped_with_queue history queued (step platform w s).
Proof.
  intros [Hstopped Hprefix]. split; [by apply step_stopped|].
  destruct Hstopped as (Hflag & _ & Hpc).
  destruct s as [wake| |]; simpl.
  - unfold monitor_directory.
    destruct (_watch_thread w); repeat (case_match; simpl; simpl_exception; try done).
    all: by apply prefix_app_r.
  - unfold callback_thread.
    destruct (_callback_thread w); try done.
  - done.
Qed.

(** X8.  Once the stop flag is set while the dispatch thread stands at its
    loop test, the thread leaves without looking at the queue: in every
    continuation the range-for is never entered again, and what was queued
    stays queued, so records already decoded and queued are never passed to
    the callback. *)
Theorem stop_at_loop_test_leaves_queue (platform : Platform) (w : FileWatch)
    (schedule : list Step) :
  _destroy w = true ->
  _callback_thread w = C_Test ->
  dispatched (run platform schedule w) = dispatched w
  /\ calls (run platform schedule w) = calls w
  /\ _callback_information w `prefix_of` _callback_information (run platform schedule w)
  /\ _callback_thread (callback_thread w) = C_Returned.
Proof.
  intros Hflag Hpc.
  assert (H : stopped_with_queue (dispatched w) (_callback_information w)
                (run platform schedule w)).
  { apply run_invariant; [intros; by apply step_stopped_with_queue|].
    split; [|done]. unfold stopped. by rewrite Hflag, Hpc. }
  destruct H as ((_ & Hsame & _) & Hprefix).
  split; [done | split; [| split; [done|]]].
  - unfold calls. by rewrite Hsame.
  - unfold callback_thread. by rewrite Hpc, Hflag.
Qed.

Lemma stop_at_loop_test_leaves_queue_witness :
  let w := run Unix
             (two_reads (Inotify [named_event IN_CREATE "a.txt"]) ReadFailed ++ [step_stop])
             (constructed Unix "D" (Some accept)) in
  _callback_information w = [("a.txt", CREATED)]
  /\ calls (run Unix (repeat step_callback 10 ++ repeat (step_watch ReadFailed) 10) w) = []
  /\ callback_finished
       (run Unix (repeat step_callback 10 ++ repeat (step_watch ReadFailed) 10) w) = true.
Proof.
  split; [vm_compute; reflexivity | split; [| vm_compute; reflexivity]].
  assert (Hflag : _destroy
                    (run Unix
                       (two_reads (Inotify [named_event IN_CREATE "a.txt"]) ReadFailed
                        ++ [step_stop])
                       (constructed Unix "D" (Some accept))) = true)
    by (vm_compute; reflexivity).
  assert (Hpc : _callback_thread
                  (run Unix
                     (two_reads (Inotify [named_event IN_CREATE "a.txt"]) ReadFailed
                      ++ [step_stop])
                     (constructed Unix "D" (Some accept))) = C_Test)
    by (vm_compute; reflexivity).
  destruct (stop_at_loop_test_leaves_queue Unix _
              (repeat step_callback 10 ++ repeat (step_watch ReadFailed) 10) Hflag Hpc)
    as (_ & Hcalls & _).
  rewrite Hcalls. vm_compute. reflexivity.
Defined.

(** ** A session without callback *)

Lemma calls_nil_all_skipped (history : list Dispatch) :
  flat_map (fun d => match d with Invoked file _ => [file] | Skipped _ => [] end) history = [] ->
  Forall (fun d => exists file, d = Skipped file) history.
Proof.
  induction history as [|d history IH]; intros H; [constructor|].
  destruct d as [file outcome|file]; [done|]. constructor; [by eexists | by apply IH].
Qed.

(** X9.  A session constructed with an empty [std::function] drops every
    record silently: in every run the callback is never called, every
    element the range-for goes through is skipped, and the queue is drained
    all the same: what is reported is what was skipped, is held, is queued or
    is still with the monitoring thread. *)
Theorem empty_callback_drops_every_record (platform : Platform) (os : Os) (path : string)
    (w0 : FileWatch) (schedule : list Step) :
  FileWatch_new platform os path None = Some w0 ->
  let w := run platform schedule w0 in
  calls w = []
  /\ Forall (fun d => exists file, d = Skipped file) (dispatched w)
  /\ handled w ++ held w ++ _callback_information w ++ parsed w = reported platform w.
Proof.
  intros Hnew w.
  destruct (FileWatch_new_fresh _ _ _ _ _ Hnew) as (_ & Hcb & _).
  destruct (constructed_run _ _ _ _ _ schedule Hnew) as (Htarget & Horder & Hcalls & _).
  fold w in Htarget, Horder, Hcalls.
  destruct Htarget as (_ & _ & Hsame).
  unfold calls_follow_callback in Hcalls. rewrite Hsame, Hcb in Hcalls.
  split; [done | split; [| done]].
  by apply calls_nil_all_skipped.
Qed.

Lemma empty_callback_drops_every_record_witness :
  let w := run Unix
             (two_reads (Inotify [named_event IN_CREATE "a.txt"]) ReadFailed
              ++ repeat step_callback 8)
             (constructed Unix "D" None) in
  dispatched w = [Skipped ("a.txt", CREATED)]
  /\ _callback_information w = []
  /\ calls w = [].
Proof.
  split; [vm_compute; reflexivity | split; [vm_compute; reflexivity|]].
  assert (Hnew : FileWatch_new Unix sample_os "D" None = Some (constructed Unix "D" None))
    by (vm_compute; reflexivity).
  exact (proj1 (empty_callback_drops_every_record Unix sample_os "D"
                  (constructed Unix "D" None)
                  (two_reads (Inotify [named_event IN_CREATE "a.txt"]) ReadFailed
                   ++ repeat step_callback 8) Hnew)).
Defined.

(** ** The readiness promise *)

Lemma run_invariant_without_stop (platform : Platform) (P : FileWatch -> Prop) :
  (forall w s, s <> step_stop -> P w -> P (step platform w s)) ->
  forall schedule w, without_stop schedule -> P w -> P (run platform schedule w).
Proof.
  intros Hstep schedule. unfold without_stop.
  induction schedule as [|s schedule IH]; intros w Hno HP; simpl; [done|].
  apply IH.
  - intros Hin. apply Hno. by apply list_elem_of_further.
  - apply Hstep; [|done]. intros ->. apply Hno, list_elem_of_here.
Qed.

Lemma step_ready_when_started (platform : Platform) (w : FileWatch) (s : Step) :
  s <> step_stop -> ready_when_started w -> ready_when_started (step platform w s).
Proof.
  unfold ready_when_started. destruct w; simpl. intros Hs [-> H].
  destruct s; [| |done]; step_cases; destruct_and?; simplify_eq/=; done.
Qed.

(** X10.  As long as the owner has not entered [destroy], the promise
    [_running] of a constructed session holds nothing exactly while the
    monitoring thread has not executed [set_value] and holds the value from
    then on; it never holds an exception, so the [future.get()] of [init]
    never throws, whatever the callback or a later batch does. *)
Theorem readiness_is_never_an_exception (platform : Platform) (os : Os) (path : string)
    (callback : option Callback) (w0 : FileWatch) (schedule : list Step) :
  FileWatch_new platform os path callback = Some w0 ->
  without_stop schedule ->
  let w := run platform schedule w0 in
  (_running w = pending <-> _watch_thread w = W_Start)
  /\ (_running w = ready <-> _watch_thread w <> W_Start)
  /\ _running w <> failed.
Proof.
  intros Hnew Hno w.
  destruct (FileWatch_new_fresh _ _ _ _ _ Hnew)
    as (Hflag & _ & Hwatch & Hcallback & _ & Hqueue & Hrunning & _).
  assert (H : ready_when_started w).
  { apply run_invariant_without_stop; [apply step_ready_when_started | done |].
    unfold ready_when_started. by rewrite Hflag, Hwatch, Hrunning, Hqueue, Hcallback. }
  destruct H as [_ H].
  destruct (_watch_thread w); try done; destruct_and?;
    match goal with Hr : _running w = _ |- _ => rewrite Hr end; done.
Qed.

Lemma readiness_is_never_an_exception_witness :
  let w := run Win32
             (two_reads (DirectoryChanges true [notification 0 FILE_ACTION_ADDED "a.txt"])
                        (DirectoryChanges false [])
              ++ repeat step_callback 8)
             (constructed Win32 "D" (Some (foreign_error_on "a.txt"))) in
  _watch_thread w = W_Threw
  /\ _callback_thread w = C_Threw []
  /\ _running w = ready.
Proof.
  split; [vm_compute; reflexivity | split; [vm_compute; reflexivity|]].
  assert (Hnew : FileWatch_new Win32 sample_os "D" (Some (foreign_error_on "a.txt"))
                 = Some (constructed Win32 "D" (Some (foreign_error_on "a.txt"))))
    by (vm_compute; reflexivity).
  assert (Hno : without_stop
                  (two_reads (DirectoryChanges true [notification 0 FILE_ACTION_ADDED "a.txt"])
                             (DirectoryChanges false [])
                   ++ repeat step_callback 8)).
  { unfold without_stop. intros Hin.
    apply list_elem_of_In in Hin. vm_compute in Hin.
    repeat (destruct Hin as [Hin | Hin]; [discriminate Hin|]). exact Hin. }
  destruct (readiness_is_never_an_exception Win32 sample_os "D"
              (Some (foreign_error_on "a.txt")) _ _ Hnew Hno) as (_ & Hready & _).
  apply Hready. vm_compute. discriminate.
Defined.

(** ** Faults of the monitoring thread *)

Lemma step_faulted (platform : Platform) (log : list OsWake) (w : FileWatch) (s : Step) :
  s <> step_stop -> faulted log w -> faulted log (step platform w s).
Proof.
  unfold faulted. destruct w; simpl. intros Hs (-> & -> & ->).
  destruct s; [| |done]; step_cases.
Qed.

(** X11.  A win32 wake-up that fails to decode ([GetOverlappedResult] fails,
    or a record that passes the filter carries an action code outside the
    table) ends the monitoring thread without a trace: the batch leaves the
    queue as it was, and as long as the owner does not enter [destroy] no
    further wake-up is ever consumed while [_running] still holds its value,
    so the owner is told nothing. *)
Theorem monitoring_fault_is_silent (w : FileWatch) (wake : OsWake) (schedule : list Step) :
  _watch_thread w = W_Wait ->
  _running w = ready ->
  wake_of Win32 wake = true ->
  decode Win32 w wake = None ->
  without_stop schedule ->
  let w' := monitor_directory Win32 wake w in
  _watch_thread w' = W_Threw
  /\ _callback_information w' = _callback_information w
  /\ os_log (run Win32 schedule w') = os_log w ++ [wake]
  /\ _watch_thread (run Win32 schedule w') = W_Threw
  /\ _running (run Win32 schedule w') = ready.
Proof.
  intros Hpc Hready Hwake Hdecode Hno w'.
  assert (Hfault : faulted (os_log w ++ [wake]) w'
                   /\ _callback_information w' = _callback_information w).
  { unfold w', faulted, monitor_directory. rewrite Hpc, Hwake.
    destruct wake as [| |ok records| |]; simpl in Hwake, Hdecode; try done.
    destruct ok; [rewrite Hdecode|]; unfold set_exception; simpl; by rewrite Hready. }
  destruct Hfault as [Hfault Hqueue].
  assert (H : faulted (os_log w ++ [wake]) (run Win32 schedule w')).
  { by apply run_invariant_without_stop; [apply step_faulted | |]. }
  destruct Hfault as (_ & Hthrew & _). destruct H as (Hlog & Hpc' & Hrunning).
  done.
Qed.

Lemma monitoring_fault_is_silent_witness :
  let w := run Win32 [step_watch CloseEvent] (constructed Win32 "D" (Some accept)) in
  let later :=
    [step_watch (DirectoryChanges true [notification 0 FILE_ACTION_ADDED "a.txt"]);
     step_watch CloseEvent; step_callback; step_callback] in
  _watch_thread w = W_Wait
  /\ os_log (run Win32 later (monitor_directory Win32 (DirectoryChanges false []) w))
     = [DirectoryChanges false []].
Proof.
  split; [vm_compute; reflexivity|].
  assert (Hno : without_stop
                  [step_watch (DirectoryChanges true [notification 0 FILE_ACTION_ADDED "a.txt"]);
                   step_watch CloseEvent; step_callback; step_callback]).
  { unfold without_stop. intros Hin.
    apply list_elem_of_In in Hin. vm_compute in Hin.
    repeat (destruct Hin as [Hin | Hin]; [discriminate Hin|]). exact Hin. }
  destruct (monitoring_fault_is_silent
              (run Win32 [step_watch CloseEvent] (constructed Win32 "D" (Some accept)))
              (DirectoryChanges false []) _ eq_refl eq_refl eq_refl eq_refl Hno)
    as (_ & _ & Hlog & _).
  exact Hlog.
Defined.

(** ** The joins of [destroy] *)


Lemma callback_thread_frame (w : FileWatch) :
  _watch_thread (callback_thread w) = _watch_thread w
  /\ _destroy (callback_thread w) = _destroy w.
Proof. destruct w; simpl. unfold callback_thread; step_cases. Qed.
















(** ** Every record reaches the callback *)

Lemma step_dispatching (platform : Platform) (callback : Callback) (w : FileWatch) (s : Step) :
  s <> step_stop ->
  _callback w = Some callback ->
  (forall file event, callback file event <> throws_other) ->
  dispatching w -> dispatching (step platform w s).
Proof.
  unfold dispatching. destruct w; simpl. intros Hs -> Hsafe [-> Hpc].
  destruct s; [| |done]; step_cases.
  all: match goal with H : _ = throws_other |- _ => by apply Hsafe in H end.
Qed.

Lemma without_stop_repeat (s : Step) (n : nat) : s <> step_stop -> without_stop (repeat s n).
Proof.
  intros Hs. unfold without_stop. intros Hin.
  apply list_elem_of_In, repeat_spec in Hin. by subst.
Qed.

Lemma without_stop_app (a b : list Step) :
  without_stop a -> without_stop b -> without_stop (a ++ b).
Proof. unfold without_stop. intros Ha Hb Hin. apply elem_of_app in Hin as [?|?]; auto. Qed.

(** What the three invariants of a flush are, and that runs keep them. *)
Lemma run_dispatching (platform : Platform) (callback : Callback) (schedule : list Step)
    (w : FileWatch) :
  without_stop schedule ->
  _callback w = Some callback ->
  (forall file event, callback file event <> throws_other) ->
  dispatching w -> mutex_consistent w ->
  dispatching (run platform schedule w)
  /\ mutex_consistent (run platform schedule w)
  /\ _callback (run platform schedule w) = Some callback.
Proof.
  intros Hno Hcb Hsafe Hd Hlock. split; [|split].
  - apply (run_invariant_without_stop platform
             (fun w => _callback w = Some callback /\ dispatching w));
      [| done | done].
    intros w' s Hs [Hcb' Hd']. split.
    + destruct (step_same_target platform w' s) as (_ & _ & ->). done.
    + by eapply step_dispatching.
  - apply run_invariant; [apply step_mutex_consistent | done].
  - destruct (run_same_target platform schedule w) as (_ & _ & ->). done.
Qed.

Lemma dispatcher_unlocks (platform : Platform) (w : FileWatch) :
  dispatcher_in_critical
    (run platform (repeat step_callback (leave_critical w)) w) = false
  /\ os_log (run platform (repeat step_callback (leave_critical w)) w) = os_log w.
Proof.
  unfold leave_critical, dispatcher_in_critical.
  destruct w as [? ? ? flag ? ? mutex queue pc ? ? ? ?]; simpl.
  destruct pc; simpl; try done; destruct queue, flag, mutex; repeat thread_step; done.
Qed.

Lemma watcher_inserts (platform : Platform) (w : FileWatch) :
  mutex_consistent w -> dispatcher_in_critical w = false ->
  let w' := run platform (repeat (step_watch ReadFailed) (insert_rank w)) w in
  parsed w' = []
  /\ watcher_in_critical w' = false
  /\ os_log w' = os_log w.
Proof.
  unfold mutex_consistent, dispatcher_in_critical, watcher_in_critical, insert_rank, parsed.
  destruct w as [? ? ? flag ? wpc mutex queue pc ? ? ? ?]; simpl.
  intros [Hmutex _] Hpc. rewrite Hpc in Hmutex.
  destruct wpc; simpl in Hmutex; subst mutex; simpl; try done;
    repeat thread_step; done.
Qed.

Lemma callback_thread_log (w : FileWatch) :
  os_log (callback_thread w) = os_log w /\ parsed (callback_thread w) = parsed w.
Proof. unfold parsed. destruct w; simpl. unfold callback_thread; step_cases. Qed.

Lemma drain_step_rank (callback : Callback) (w : FileWatch) :
  _callback w = Some callback ->
  (forall file event, callback file event <> throws_other) ->
  dispatching w -> mutex_consistent w -> watcher_in_critical w = false ->
  (drain_rank (callback_thread w) < drain_rank w \/ drain_rank w = 0)%nat.
Proof.
  unfold dispatching, mutex_consistent, dispatcher_in_critical, watcher_in_critical,
    drain_rank, test_rank.
  destruct w as [? ? ? flag cb wpc mutex queue pc running ? ? ?]; simpl.
  intros -> Hsafe [-> Halive] [Hmutex _] Hpc. rewrite Hpc in Hmutex.
  destruct pc as [| | | | | |local|local| |unreached]; simpl in Hmutex; subst mutex;
    try done.
  all: try (destruct queue; thread_step; simpl; lia).
  destruct local as [|file following]; [destruct queue; thread_step; simpl; lia|].
  destruct (callback file.1 file.2) eqn:Houtcome; [| |by apply Hsafe in Houtcome];
    destruct queue; thread_step; rewrite Houtcome; simpl; lia.
Qed.

Lemma drain_finishes (platform : Platform) (callback : Callback) (n : nat) :
  forall w,
    _callback w = Some callback ->
    (forall file event, callback file event <> throws_other) ->
    dispatching w -> mutex_consistent w -> watcher_in_critical w = false ->
    (drain_rank w <= n)%nat ->
    let w' := run platform (repeat step_callback n) w in
    _callback_thread w' = C_Wait /\ _callback_information w' = []
    /\ os_log w' = os_log w /\ parsed w' = parsed w.
Proof.
  assert (Hzero : forall w, dispatching w -> drain_rank w = 0%nat ->
                    _callback_thread w = C_Wait /\ _callback_information w = []).
  { unfold dispatching, drain_rank, test_rank. intros w [_ Halive].
    destruct (_callback_thread w); try done;
      destruct (_callback_information w); simpl; try done; lia. }
  assert (Hstay : forall k w, _destroy w = false -> _callback_thread w = C_Wait ->
            _callback_information w = [] ->
            run platform (repeat step_callback k) w = w).
  { induction k as [|k IH]; intros w Hflag Hpc Hq; [done|]. simpl.
    assert (Hsame : callback_thread w = w).
    { unfold callback_thread, wake_condition. rewrite Hpc, Hq, Hflag. simpl.
      by destruct (_callback_mutex w). }
    rewrite Hsame. by apply IH. }
  induction n as [|n IH]; intros w Hcb Hsafe Hd Hlock Hquiet Hrank.
  - simpl. destruct (Hzero w Hd) as [? ?]; [lia | done].
  - destruct (drain_step_rank callback w Hcb Hsafe Hd Hlock Hquiet) as [Hless | Hdone].
    + simpl.
      destruct (callback_thread_log w) as [Hlog Hparsed].
      destruct (IH (callback_thread w)) as (H1 & H2 & H3 & H4).
      * destruct (step_same_target platform w step_callback) as (_ & _ & Hsame).
        simpl in Hsame. by rewrite Hsame.
      * done.
      * by apply (step_dispatching platform callback w step_callback).
      * by apply (step_mutex_consistent platform w step_callback).
      * unfold watcher_in_critical in *.
        by rewrite (proj1 (callback_thread_frame w)).
      * lia.
      * by rewrite H3, H4, Hlog, Hparsed.
    + destruct (Hzero w Hd Hdone) as [Hpc Hq].
      cbv zeta. rewrite Hstay; [done | by destruct Hd | done | done].
Qed.

Lemma run_bookkeeping (platform : Platform) (schedule : list Step) (w0 w : FileWatch) :
  same_target w0 w -> order_kept platform w0 w -> calls_follow_callback w ->
  same_target w0 (run platform schedule w)
  /\ order_kept platform w0 (run platform schedule w)
  /\ calls_follow_callback (run platform schedule w).
Proof.
  intros Htarget Horder Hcalls. split; [|split].
  - eapply same_target_trans; [done | apply run_same_target].
  - by apply run_order_kept.
  - apply run_invariant; [apply step_calls_follow_callback | done].
Qed.

(** X13.  Nothing that survives decoding is lost while the session runs: from
    every state a constructed session reaches without a stop request, with a
    callback that lets no foreign exception escape, the schedule [flush],
    which consumes no further wake-up, ends with the dispatch thread waiting
    on an empty queue after the callback has been called, once each and in
    the reported order, for every surviving record reported so far. *)
Theorem every_record_reaches_the_callback (platform : Platform) (os : Os) (path : string)
    (callback : Callback) (w0 : FileWatch) (schedule : list Step) :
  FileWatch_new platform os path (Some callback) = Some w0 ->
  without_stop schedule ->
  (forall file event, callback file event <> throws_other) ->
  let w := run platform schedule w0 in
  let w' := run platform (flush platform w) w in
  calls w' = reported platform w
  /\ _callback_information w' = []
  /\ _callback_thread w' = C_Wait
  /\ os_log w' = os_log w.
Proof.
  intros Hnew Hno Hsafe w.
  destruct (FileWatch_new_fresh _ _ _ _ _ Hnew)
    as (Hflag0 & Hcb0 & Hwatch0 & Hcallback0 & Hmutex0 & Hqueue0 & _ & Hlog0 & Hdispatched0).
  assert (Hd0 : dispatching w0) by (unfold dispatching; by rewrite Hflag0, Hcallback0).
  pose proof (fresh_mutex_consistent w0 Hwatch0 Hcallback0 Hmutex0) as Hlock0.
  destruct (run_dispatching platform callback schedule w0 Hno Hcb0 Hsafe Hd0 Hlock0)
    as (Hd & Hlock & Hcb).
  destruct (constructed_run _ _ _ _ _ schedule Hnew) as (Htarget & _ & Hcalls & _).
  assert (Horder : order_kept platform w0 (run platform schedule w0)).
  { apply run_order_kept; [done | by apply fresh_order_kept]. }
  pose proof (reported_same_target platform w0 _ Htarget) as Hreported.
  fold w in Hd, Hlock, Hcb, Htarget, Hcalls, Horder, Hreported.
  clearbody w. clear Hnew Hno Hd0 Hlock0.
  unfold flush. cbv zeta. rewrite !run_app.
  (* the dispatch thread leaves the mutex *)
  destruct (dispatcher_unlocks platform w) as [Hfree Hlog1].
  destruct (run_dispatching platform callback (repeat step_callback (leave_critical w)) w)
    as (Hd1 & Hlock1 & Hcb1); [by apply without_stop_repeat | done..|].
  destruct (run_bookkeeping platform (repeat step_callback (leave_critical w)) w0 w)
    as (Htarget1 & Horder1 & Hcalls1); [done..|].
  remember (run platform (repeat step_callback (leave_critical w)) w) as unlocked eqn:Hu.
  clear Hu.
  (* the monitoring thread inserts *)
  destruct (watcher_inserts platform unlocked Hlock1 Hfree) as (Hparsed2 & Hquiet2 & Hlog2).
  destruct (run_dispatching platform callback
              (repeat (step_watch ReadFailed) (insert_rank unlocked)) unlocked)
    as (Hd2 & Hlock2 & Hcb2); [by apply without_stop_repeat | done..|].
  destruct (run_bookkeeping platform
              (repeat (step_watch ReadFailed) (insert_rank unlocked)) w0 unlocked)
    as (Htarget2 & Horder2 & Hcalls2); [done..|].
  remember (run platform (repeat (step_watch ReadFailed) (insert_rank unlocked)) unlocked)
    as inserted eqn:Hi.
  clear Hi.
  (* the dispatch thread drains *)
  destruct (drain_finishes platform callback (drain_rank inserted) inserted
              Hcb2 Hsafe Hd2 Hlock2 Hquiet2 (le_n _)) as (Hpc3 & Hqueue3 & Hlog3 & Hparsed3).
  destruct (run_bookkeeping platform (repeat step_callback (drain_rank inserted)) w0 inserted)
    as (Htarget3 & Horder3 & Hcalls3); [done..|].
  remember (run platform (repeat step_callback (drain_rank inserted)) inserted)
    as drained eqn:Hdr.
  clear Hdr.
  split; [| split; [done | split; [done | congruence]]].
  unfold order_kept, held in Horder3.
  rewrite Hpc3, Hqueue3, Hparsed3, Hparsed2, !app_nil_r in Horder3.
  unfold calls_follow_callback in Hcalls3.
  destruct Htarget3 as (_ & _ & Hsame3). rewrite Hsame3, Hcb0 in Hcalls3.
  rewrite Hcalls3, Horder3, Hreported. congruence.
Qed.

Lemma every_record_reaches_the_callback_witness :
  let w := run Unix
             [step_callback; step_callback; step_watch ReadFailed; step_watch ReadFailed;
              step_watch (Inotify [named_event IN_CREATE "a.txt"; named_event IN_MODIFY "a.txt"]);
              step_watch ReadFailed]
             (constructed Unix "D" (Some (std_error_on "a.txt"))) in
  calls w = []
  /\ reported Unix w = [("a.txt", CREATED); ("a.txt", CHANGED)]
  /\ calls (run Unix (flush Unix w) w) = reported Unix w.
Proof.
  split; [vm_compute; reflexivity | split; [vm_compute; reflexivity|]].
  assert (Hnew : FileWatch_new Unix sample_os "D" (Some (std_error_on "a.txt"))
                 = Some (constructed Unix "D" (Some (std_error_on "a.txt"))))
    by (vm_compute; reflexivity).
  assert (Hno : without_stop
                  [step_callback; step_callback; step_watch ReadFailed; step_watch ReadFailed;
                   step_watch (Inotify [named_event IN_CREATE "a.txt";
                                        named_event IN_MODIFY "a.txt"]);
                   step_watch ReadFailed]).
  { unfold without_stop. intros Hin.
    apply list_elem_of_In in Hin. vm_compute in Hin.
    repeat (destruct Hin as [Hin | Hin]; [discriminate Hin|]). exact Hin. }
  assert (Hsafe : forall file event, std_error_on "a.txt" file event <> throws_other).
  { intros file event. unfold std_error_on. by case_bool_decide. }
  exact (proj1 (every_record_reaches_the_callback Unix sample_os "D"
                  (std_error_on "a.txt") _ _ Hnew Hno Hsafe)).
Defined.

(** ** Wide names *)

Lemma narrow_low_byte (unit unit' : Z) : unit mod 256 = unit' mod 256 -> narrow unit = narrow unit'.
Proof. unfold narrow. by intros ->. Qed.

Lemma map_narrow_low_bytes (units units' : list Z) :
  Forall2 (fun unit unit' => unit mod 256 = unit' mod 256) units units' ->
  forall n, map narrow (take n units) = map narrow (take n units').
Proof.
  induction 1 as [|unit unit' units units' Hunit _ IH]; intros n; [done|].
  destruct n as [|n]; [done|]. simpl. by rewrite (narrow_low_byte _ _ Hunit), IH.
Qed.

(** X14.  The win32 decoder keeps the low byte of every UTF-16 code unit and
    nothing else: two records with the same action and name length whose
    names agree on the low bytes decode to the same name, get the same answer
    from the filter and contribute the same element to the queue. *)
Theorem wide_names_are_cut_to_low_bytes (w : FileWatch) (next next' action bytes : Z)
    (units units' : list Z) :
  Forall2 (fun unit unit' => unit mod 256 = unit' mod 256) units units' ->
  changed_file_of (mk_FILE_NOTIFY_INFORMATION next action bytes units)
  = changed_file_of (mk_FILE_NOTIFY_INFORMATION next' action bytes units')
  /\ notify_entry w (mk_FILE_NOTIFY_INFORMATION next action bytes units)
     = notify_entry w (mk_FILE_NOTIFY_INFORMATION next' action bytes units').
Proof.
  intros Hunits.
  assert (Hname : changed_file_of (mk_FILE_NOTIFY_INFORMATION next action bytes units)
                  = changed_file_of (mk_FILE_NOTIFY_INFORMATION next' action bytes units')).
  { unfold changed_file_of. simpl. by rewrite (map_narrow_low_bytes _ _ Hunits). }
  split; [done|]. unfold notify_entry. by rewrite Hname.
Qed.

Lemma wide_names_are_cut_to_low_bytes_witness :
  notify_entry (constructed Win32 "D\a.txt" (Some accept))
    (mk_FILE_NOTIFY_INFORMATION 0 FILE_ACTION_MODIFIED 10 [353; 46; 116; 120; 116])
  = Some [("a.txt", CHANGED)].
Proof.
  etrans.
  - apply (proj2 (wide_names_are_cut_to_low_bytes (constructed Win32 "D\a.txt" (Some accept))
                    0 0 FILE_ACTION_MODIFIED 10
                    [353; 46; 116; 120; 116] [97; 46; 116; 120; 116]
                    ltac:(repeat constructor))).
  - vm_compute. reflexivity.
Defined.
